(** * Gab TV add-on: the scraper core of [resources/lib/webscraper.py]

    A shallow embedding of the thumbnail cache ([download_fanart],
    [sorted_ls]), of the stream URL resolution ([retrieve_video_url],
    [kodi_header]) and of the catalog item mapper ([__map_videos]),
    with the properties the specification states about them.

    Python strings are [string]s (sequences of bytes, UTF-8 for text beyond
    ASCII), Python integers are [Z], lists are [list]s.  Exceptions are
    values of [PyError]; a function that can raise lives in the monad [M]
    that threads the state of the world (the thumbnail directory, the clock,
    the log of HTTP requests and the cookie jar of the session). *)

From Stdlib Require Import String Ascii List ZArith Lia Bool Arith Permutation Sorted.
Import ListNotations.
Open Scope string_scope.

(** ** Python's string and list primitives *)

(** [s.split(sep)] for a one-character separator: every occurrence cuts,
    so the result is never empty and [''.split('/') = ['']]. *)
Fixpoint py_split (sep : ascii) (s : string) : list string :=
  match s with
  | EmptyString => [EmptyString]
  | String a r =>
      if Ascii.eqb a sep then EmptyString :: py_split sep r
      else match py_split sep r with
           | h :: t => String a h :: t
           | [] => [String a EmptyString]
           end
  end.

(** [l[-1]] on the result of a split (which has at least one element). *)
Definition py_last (l : list string) : string := last l EmptyString.

(** [l[i]] for a non-negative literal index: [IndexError] is [None]. *)
Definition py_index (l : list string) (i : nat) : option string := nth_error l i.

(** [l[0:k]] with Python's treatment of the end of a slice: a negative end
    counts from the end of the list, and both are clamped to [0..len l]. *)
Definition slice_end (len k : Z) : Z :=
  if (k <? 0)%Z then Z.max 0 (k + len) else Z.min k len.

Definition py_slice_to {A} (l : list A) (k : Z) : list A :=
  firstn (Z.to_nat (slice_end (Z.of_nat (List.length l)) k)) l.

(** [s[:-1]]: the string without its last character ([''] stays ['']). *)
Fixpoint drop_last_char (s : string) : string :=
  match s with
  | EmptyString => EmptyString
  | String a EmptyString => EmptyString
  | String a r => String a (drop_last_char r)
  end.

(** Does the character occur in the string? *)
Fixpoint has_char (c : ascii) (s : string) : bool :=
  match s with
  | EmptyString => false
  | String a r => Ascii.eqb a c || has_char c r
  end.

(** [s.rfind(c)] as a cut: the part before the last [c] and the part from
    it on, [None] when [c] does not occur. *)
Fixpoint rcut (c : ascii) (s : string) : option (string * string) :=
  match s with
  | EmptyString => None
  | String a r =>
      match rcut c r with
      | Some (b, e) => Some (String a b, e)
      | None => if Ascii.eqb a c then Some (EmptyString, s) else None
      end
  end.

(** Is every character of the string [c]? *)
Fixpoint all_char (c : ascii) (s : string) : bool :=
  match s with
  | EmptyString => true
  | String a r => Ascii.eqb a c && all_char c r
  end.

(** [os.path.splitext(p)] (posixpath, through [genericpath._splitext]): the
    extension starts at the last dot of the last path component, unless
    that component has only dots before it. *)
Definition splitext (p : string) : string * string :=
  let '(head, base) :=
    match rcut "/" p with
    | Some (b, String _ e) => (b ++ "/", e)
    | _ => (EmptyString, p)
    end in
  match rcut "." base with
  | Some (b, e) => if all_char "." b then (p, EmptyString) else (head ++ b, e)
  | None => (p, EmptyString)
  end.

(** [os.path.join(a, *p)] of posixpath. *)
Definition ends_with_slash (s : string) : bool :=
  match rcut "/" s with
  | Some (_, String _ EmptyString) => true
  | _ => false
  end.

Definition starts_with_slash (s : string) : bool :=
  match s with
  | String a _ => Ascii.eqb a "/"
  | EmptyString => false
  end.

Definition join2 (path b : string) : string :=
  if starts_with_slash b then b
  else if (path =? EmptyString) || ends_with_slash path then path ++ b
  else path ++ "/" ++ b.

Definition os_path_join (a : string) (p : list string) : string :=
  fold_left join2 p a.

(** ** Percent-encoding ([urllib.parse]) *)

Definition hex_digit (n : N) : ascii :=
  if (n <? 10)%N then ascii_of_N (48 + n) else ascii_of_N (55 + n).

(** The characters [quote] never escapes: letters, digits and [_.-~]. *)
Definition unreserved (c : ascii) : bool :=
  let n := N_of_ascii c in
  ((65 <=? n) && (n <=? 90) || (97 <=? n) && (n <=? 122)
   || (48 <=? n) && (n <=? 57)
   || (n =? 95) || (n =? 46) || (n =? 45) || (n =? 126))%N.

Definition percent (c : ascii) : string :=
  let n := N_of_ascii c in
  String "%" (String (hex_digit (n / 16)) (String (hex_digit (n mod 16)) EmptyString)).

(** [quote(s)] with its default [safe='/']. *)
Fixpoint quote (s : string) : string :=
  match s with
  | EmptyString => EmptyString
  | String c r =>
      (if unreserved c || Ascii.eqb c "/" then String c EmptyString else percent c)
      ++ quote r
  end.

(** [quote_plus(s)]: nothing is safe and a space becomes a plus sign. *)
Fixpoint quote_plus (s : string) : string :=
  match s with
  | EmptyString => EmptyString
  | String c r =>
      (if Ascii.eqb c " " then "+"
       else if unreserved c then String c EmptyString else percent c)
      ++ quote_plus r
  end.

(** ['&'.join(l)] *)
Fixpoint join_amp (l : list string) : string :=
  match l with
  | [] => EmptyString
  | [x] => x
  | x :: r => x ++ "&" ++ join_amp r
  end.

(** [urlencode(d)] of a mapping with string keys and values. *)
Definition urlencode (d : list (string * string)) : string :=
  join_amp (map (fun kv => quote_plus (fst kv) ++ "=" ++ quote_plus (snd kv)) d).

(** ** The world the scraper runs in *)

(** A file of the thumbnail directory: its name, its modification time and
    its content.  The code only compares modification times, so a time is
    a number of ticks. *)
Record File := mkFile { fname : string; mtime : nat; fdata : string }.

(** What [requests.get(url)] answers: the [Content-Type] header, when the
    response has one, and the body. *)
Record Response := mkResponse { content_type : option string; content : string }.

(** What the scraper reads off a detail page fetched with [session.get]:
    the cookies the response sets, the [content] attribute of the
    [og:video] meta tag and the [data-view-key] attribute of the
    [studio-player] div.  The outer [None] is a tag [soup.find] does not
    find, the inner one an attribute [.get] does not find. *)
Record Page := mkPage {
  set_cookies : list (string * string);
  og_video : option (option string);
  data_view_key : option (option string)
}.

(** The mutable state: the directory [resources/thumbnails] (it exists)
    in the order [os.listdir] reports it, the clock that stamps written
    files, the URLs
    asked of [requests.get] (latest first), and the module's global
    [session] (the cookies of its jar, name and value, in the order the jar
    is iterated, and its headers). *)
Record World := mkWorld {
  thumbs : list File;
  clock : nat;
  fetched : list string;
  cookies : list (string * string);
  session_headers : list (string * string)
}.

(** The exceptions the modelled code can raise, and the outcome of an
    expression that can raise. *)
Inductive PyError :=
| IndexError | KeyError | AttributeError | TypeError | ValueError
| FileNotFoundError | RequestException | CookieConflictError.

Inductive result (A : Type) :=
| Ok (a : A)
| Raise (e : PyError).
Arguments Ok {A} a.
Arguments Raise {A} e.

(** What the code reads and does not change: the add-on's directory, the
    outcome of [int(get_setting('cache_size'))] (an integer, or the
    exception [int] raises on a setting that is not one), the remote images
    and the remote pages ([None] when the request raises). *)
Record Env := mkEnv {
  addon_dir : string;
  cache_size : result Z;
  http_get : string -> option Response;
  site : string -> option Page
}.

(** State and exceptions: a raised exception keeps the effects done so far. *)
Definition M (A : Type) : Type := World -> result A * World.

Definition ret {A} (a : A) : M A := fun w => (Ok a, w).
Definition raise {A} (e : PyError) : M A := fun w => (Raise e, w).
Definition bind {A B} (m : M A) (k : A -> M B) : M B :=
  fun w => match m w with
           | (Ok a, w') => k a w'
           | (Raise e, w') => (Raise e, w')
           end.

Notation "x <- m ;; k" := (bind m (fun x => k))
  (at level 61, m at next level, right associativity).
Notation "m ;;; k" := (bind m (fun _ => k))
  (at level 61, right associativity).

Definition gets {A} (f : World -> A) : M A := fun w => (Ok (f w), w).
Definition modify (f : World -> World) : M unit := fun w => (Ok tt, f w).

(** [for x in l: body(x)] *)
Fixpoint for_each {A} (l : list A) (body : A -> M unit) : M unit :=
  match l with
  | [] => ret tt
  | x :: r => body x ;;; for_each r body
  end.

(** [try: e except: d] on an expression without effects. *)
Definition try_except {A} (e : result A) (d : A) : A :=
  match e with Ok a => a | Raise _ => d end.

(** ** The thumbnail directory *)

(** [os.listdir(path)] *)
Definition os_listdir : M (list string) := gets (fun w => map fname (thumbs w)).

Definition set_thumbs (fs : list File) (w : World) : World :=
  mkWorld fs (clock w) (fetched w) (cookies w) (session_headers w).

(** Writing a file over the directory listing: an existing name keeps its
    place and gets the new content and time, a new name comes last. *)
Fixpoint put_file (f : File) (fs : list File) : list File :=
  match fs with
  | [] => [f]
  | g :: r => if fname g =? fname f then f :: r else g :: put_file f r
  end.

(** [file = open(filename, "wb"); file.write(data); file.close()] for a
    file of the thumbnail directory: it is stamped with the current time,
    and time moves on.  The directory is there and writable and takes the
    name, so the write itself does not fail. *)
Definition write_file (name data : string) : M unit :=
  modify (fun w => mkWorld (put_file (mkFile name (clock w) data) (thumbs w))
                           (S (clock w)) (fetched w) (cookies w) (session_headers w)).

Definition has_name (name : string) (f : File) : bool := fname f =? name.

(** [os.remove(path + '/' + name)] *)
Definition os_remove (name : string) : M unit :=
  fun w => if existsb (has_name name) (thumbs w)
           then (Ok tt, set_thumbs (filter (fun f => negb (has_name name f)) (thumbs w)) w)
           else (Raise FileNotFoundError, w).

(** [requests.get(url)] *)
Definition requests_get (env : Env) (url : string) : M Response :=
  fun w => let w' := mkWorld (thumbs w) (clock w) (url :: fetched w)
                             (cookies w) (session_headers w) in
           match http_get env url with
           | Some r => (Ok r, w')
           | None => (Raise RequestException, w')
           end.

(** [sorted(l, key=mtime)]: Python's sort is stable, so is this insertion
    sort. *)
Fixpoint insert_by_mtime (f : File) (l : list File) : list File :=
  match l with
  | [] => [f]
  | g :: r => if (mtime f <=? mtime g)%nat then f :: l else g :: insert_by_mtime f r
  end.

Fixpoint sort_by_mtime (l : list File) : list File :=
  match l with
  | [] => []
  | f :: r => insert_by_mtime f (sort_by_mtime r)
  end.

(** [sorted_ls(path)] on the thumbnail directory. *)
Definition sorted_ls (fs : list File) : list string :=
  map fname (sort_by_mtime fs).

(** ** The thumbnail cache: [download_fanart] *)

(** The test of the lookup loop: [os.path.splitext(s)[0] == 'gabtv_' + key]. *)
Definition is_cached (key s : string) : bool :=
  fst (splitext s) =? "gabtv_" ++ key.

(** [response.headers['Content-Type']] *)
Definition header_content_type (r : Response) : result string :=
  match content_type r with
  | Some v => Ok v
  | None => Raise KeyError
  end.

(** The [try ... except] that chooses the extension. *)
Definition extension_of (r : Response) : string :=
  try_except
    (match header_content_type r with
     | Ok v => Ok (py_last (py_split "/" v))
     | Raise e => Raise e
     end)
    "apng".

(** The name of the file a miss writes. *)
Definition cache_name (key extension : string) : string :=
  "gabtv_" ++ key ++ "." ++ extension.

(** The first part of [download_fanart]: find the file or fetch and write
    it; the result is [filename]. *)
Definition lookup_or_fetch (env : Env) (url : string) : M string :=
  let key := py_last (py_split "/" url) in
  names <- os_listdir ;;
  match find (is_cached key) names with
  | Some s => ret (os_path_join (addon_dir env) ["resources"; "thumbnails"; s])
  | None =>
      response <- requests_get env url ;;
      let extension := extension_of response in
      let filename := os_path_join (addon_dir env)
                        ["resources"; "thumbnails"; cache_name key extension] in
      write_file (cache_name key extension) (content response) ;;;
      ret filename
  end.

(** [sorted_ls(path)[0:(len(sorted_ls(path))-max_Files)]] *)
Definition del_list (fs : list File) (max_Files : Z) : list string :=
  py_slice_to (sorted_ls fs) (Z.of_nat (List.length (sorted_ls fs)) - max_Files).

(** The second part of [download_fanart]: the eviction. *)
Definition evict (env : Env) : M unit :=
  max_Files <- (match cache_size env with
                | Ok n => ret n
                | Raise e => raise e
                end) ;;
  dl <- gets (fun w => del_list (thumbs w) max_Files) ;;
  for_each dl os_remove.

Definition download_fanart (env : Env) (url : string) : M string :=
  filename <- lookup_or_fetch env url ;;
  evict env ;;;
  ret filename.

(** ** The stream URL: [kodi_header] and [retrieve_video_url] *)

Definition BASE_URL : string := "https://tv.gab.com".

(** The line [name=value;] of every cookie of a jar, one after the
    other. *)
Definition cookie_line (jar : list (string * string)) : string :=
  fold_left (fun header c => header ++ fst c ++ "=" ++ snd c ++ ";") jar EmptyString.

(** The keys of [session.cookies.get_dict()]: the names of the cookies,
    each once, in the order of their first cookie. *)
Fixpoint dict_keys (jar : list (string * string)) : list string :=
  match jar with
  | [] => []
  | c :: r => fst c :: filter (fun k => negb (k =? fst c)) (dict_keys r)
  end.

(** [session.cookies[name]], the [_find_no_duplicates] of the jar of
    requests: a second cookie of that name is a [CookieConflictError];
    no cookie of that name, or one with an empty value, is a [KeyError]. *)
Fixpoint find_no_duplicates (name : string) (jar : list (string * string))
    (toReturn : option string) : result string :=
  match jar with
  | [] => match toReturn with
          | Some v => if v =? EmptyString then Raise KeyError else Ok v
          | None => Raise KeyError
          end
  | c :: r =>
      if fst c =? name then
        match toReturn with
        | Some _ => Raise CookieConflictError
        | None => find_no_duplicates name r (Some (snd c))
        end
      else find_no_duplicates name r toReturn
  end.

(** The loop of [kodi_header] over the keys:
    [header += element + '=' + session.cookies[element] + ';']. *)
Fixpoint cookie_loop (jar : list (string * string)) (elements : list string)
    (header : string) : result string :=
  match elements with
  | [] => Ok header
  | element :: r =>
      match find_no_duplicates element jar None with
      | Ok v => cookie_loop jar r (header ++ element ++ "=" ++ v ++ ";")
      | Raise e => Raise e
      end
  end.

Definition kodi_header : M string :=
  jar <- gets cookies ;;
  hs <- gets session_headers ;;
  match cookie_loop jar (dict_keys jar) EmptyString with
  | Raise e => raise e
  | Ok line =>
      let header := drop_last_char line in
      ret ("|" ++ "Cookie=" ++ quote header ++ "&" ++ urlencode hs)
  end.

(** A cookie set by a response replaces the one of the same name or is
    added to the jar. *)
Fixpoint set_cookie (c : string * string) (jar : list (string * string))
  : list (string * string) :=
  match jar with
  | [] => [c]
  | d :: r => if fst d =? fst c then c :: r else d :: set_cookie c r
  end.

Definition update_jar (jar new : list (string * string)) : list (string * string) :=
  fold_left (fun j c => set_cookie c j) new jar.

(** [session.get(url, headers=headers)] followed by the parse of the page. *)
Definition session_get (env : Env) (url : string) : M Page :=
  fun w => match site env url with
           | Some p => (Ok p, mkWorld (thumbs w) (clock w) (fetched w)
                                      (update_jar (cookies w) (set_cookies p))
                                      (session_headers w))
           | None => (Raise RequestException, w)
           end.

(** [soup.find(...).get(attr)]: a missing tag is [None.get], an
    [AttributeError]. *)
Definition find_get (a : option (option string)) : M (option string) :=
  match a with
  | Some v => ret v
  | None => raise AttributeError
  end.

(** A Python string operand of [+]: [None] is a [TypeError]. *)
Definition as_str (v : option string) : M string :=
  match v with
  | Some s => ret s
  | None => raise TypeError
  end.

Definition retrieve_video_url (env : Env) (channel view : string) : M string :=
  let url := BASE_URL ++ "/channel/" ++ channel ++ "/view/" ++ view in
  page <- session_get env url ;;
  media <- find_get (og_video page) ;;
  view_key <- find_get (data_view_key page) ;;
  let resolution := "1080p" in
  m <- as_str media ;;
  k <- as_str view_key ;;
  h <- kodi_header ;;
  ret (m ++ "?viewKey=" ++ k ++ "&r=" ++ resolution ++ h).

(** ** The catalog item mapper: [__map_videos] *)

(** Modelled from the spec: the routes [url_for] builds (the routing
    library and [addon.py]'s route table give [play_video] a channel and a
    view); the spec calls them opaque navigation targets. *)
Inductive Route :=
| play_video (channel view : string)
| categories (category : option string).

(** Modelled from the spec: [helperobjects.TitleItem], the spec's
    CatalogItem, with the fields [__map_videos] fills in. *)
Record TitleItem := mkTitleItem {
  label : string;
  path : Route;
  art_thumb : string;
  art_fanart : string;
  art_icon : string;
  info_plot : string;
  is_playable : bool
}.

(** [l[i]] inside the monad. *)
Definition index_or_raise (l : list string) (i : nat) : M string :=
  match py_index l i with
  | Some s => ret s
  | None => raise IndexError
  end.

(** The line feed of ['\nChannel: ']. *)
Definition newline : string := String (ascii_of_nat 10) EmptyString.

(** The body of the loop of [__map_videos], for one triple. *)
Definition map_video (env : Env) (title video_url art_url : string) : M TitleItem :=
  channel <- index_or_raise (py_split "/" video_url) 2 ;;
  view <- index_or_raise (py_split "/" video_url) 4 ;;
  art <- download_fanart env art_url ;;
  ret (mkTitleItem title (play_video channel view) art art art
         ("Title: " ++ title ++ newline ++ "Channel: " ++ channel) true).

(** [zip(titles, video_urls, art_urls)] *)
Fixpoint zip3 (a b c : list string) : list (string * string * string) :=
  match a, b, c with
  | x :: a', y :: b', z :: c' => (x, y, z) :: zip3 a' b' c'
  | _, _, _ => []
  end.

Fixpoint map_videos_loop (env : Env) (l : list (string * string * string))
  : M (list TitleItem) :=
  match l with
  | [] => ret []
  | (title, video_url, art_url) :: r =>
      item <- map_video env title video_url art_url ;;
      items <- map_videos_loop env r ;;
      ret (item :: items)
  end.

Definition __map_videos (env : Env) (titles video_urls art_urls : list string)
  : M (list TitleItem) :=
  map_videos_loop env (zip3 titles video_urls art_urls).

(** A run of [download_fanart] over a sequence of URLs, one call after the
    other, as the loops of [__map_videos] and [list_categories] do. *)
Fixpoint download_all (env : Env) (urls : list string) : M (list string) :=
  match urls with
  | [] => ret []
  | u :: r =>
      f <- download_fanart env u ;;
      fs <- download_all env r ;;
      ret (f :: fs)
  end.

(** The directory is a directory: no two files share a name. *)
Definition wf_dir (w : World) : Prop := NoDup (map fname (thumbs w)).

(** No file is stamped with the current or a later time. *)
Definition past_mtimes (w : World) : Prop :=
  Forall (fun f => mtime f < clock w) (thumbs w).

(** The files left when the names of [dl] are removed. *)
Definition remove_all (dl : list string) (fs : list File) : list File :=
  filter (fun f => negb (existsb (String.eqb (fname f)) dl)) fs.

(** What the specification calls a well-formed content type: a media type
    [type/subtype]; a value without a slash is malformed. *)
Definition is_media_type (v : string) : bool := has_char "/" v.

(** ** Auxiliary notions and sample worlds for the statements *)

(** [f] was modified no later than [g]. *)
Definition older (f g : File) : Prop := mtime f <= mtime g.

(** How many files the slice of [del_list] selects in a directory of [n]
    files. *)
Definition evict_count (n : nat) (max_Files : Z) : nat :=
  Z.to_nat (slice_end (Z.of_nat n) (Z.of_nat n - max_Files)).

(** [os.path.join(addon_dir, 'resources', 'thumbnails', name)] *)
Definition thumb_path (env : Env) (name : string) : string :=
  os_path_join (addon_dir env) ["resources"; "thumbnails"; name].

(** [key = url.split('/')[-1]] *)
Definition url_key (url : string) : string := py_last (py_split "/" url).

(** An empty directory, no request made yet, an empty cookie jar. *)
Definition w_empty : World := mkWorld [] 0 [] [] [].

Definition png : Response := mkResponse (Some "image/png") "PNG".

(** An environment where every image is a PNG and the setting is [n]. *)
Definition env_cache (n : Z) : Env :=
  mkEnv "/addon" (Ok n) (fun _ => Some png) (fun _ => None).

(** A directory of three files written at times 1, 2 and 3. *)
Definition three_files : list File :=
  [mkFile "gabtv_a.png" 1 "A"; mkFile "gabtv_b.png" 2 "B"; mkFile "gabtv_c.png" 3 "C"].

Definition w_three : World := mkWorld three_files 4 [] [] [].

(** The URL [retrieve_video_url] asks for. *)
Definition detail_url (channel view : string) : string :=
  BASE_URL ++ "/channel/" ++ channel ++ "/view/" ++ view.

(** A detail page with a media URL and a view key, setting no cookie. *)
Definition cdn_page : Page :=
  mkPage [] (Some (Some "https://cdn/video")) (Some (Some "abc123")).

(** An environment where every detail page is [p]. *)
Definition env_site (p : Page) : Env :=
  mkEnv "/addon" (Ok 5%Z) (fun _ => None) (fun _ => Some p).

(** A session with the one cookie [a=1] and no headers. *)
Definition w_cookie : World := mkWorld [] 0 [] [("a", "1")] [].

(** The [i]-th slash-delimited segment of a navigation reference. *)
Definition segment (video_url : string) (i : nat) : string :=
  nth i (py_split "/" video_url) EmptyString.

(** Ten image URLs with ten different keys. *)
Definition ten_urls : list string :=
  ["https://tv.gab.com/i/0"; "https://tv.gab.com/i/1"; "https://tv.gab.com/i/2";
   "https://tv.gab.com/i/3"; "https://tv.gab.com/i/4"; "https://tv.gab.com/i/5";
   "https://tv.gab.com/i/6"; "https://tv.gab.com/i/7"; "https://tv.gab.com/i/8";
   "https://tv.gab.com/i/9"].

(** [path = os.path.join(addon_dir, 'resources', 'thumbnails')], the
    directory [download_fanart] lists and removes files from. *)
Definition thumbnails_dir (env : Env) : string :=
  os_path_join (addon_dir env) ["resources"; "thumbnails"].

(** [sep.join(l)] *)
Fixpoint py_join (sep : string) (l : list string) : string :=
  match l with
  | [] => EmptyString
  | [x] => x
  | x :: r => x ++ sep ++ py_join sep r
  end.

(** Does every character of the string satisfy [p]? *)
Fixpoint all_chars (p : ascii -> bool) (s : string) : bool :=
  match s with
  | EmptyString => true
  | String a r => p a && all_chars p r
  end.

(** The characters [quote_plus] can produce: the unreserved ones, the
    percent sign of an escape and the plus sign of a space. *)
Definition query_char (c : ascii) : bool :=
  unreserved c || Ascii.eqb c "%" || Ascii.eqb c "+".

(** The characters [kodi_header] can produce after its leading bar: those
    of [quote] and [urlencode], and the separators [=] and [&]. *)
Definition header_char (c : ascii) : bool :=
  query_char c || Ascii.eqb c "/" || Ascii.eqb c "=" || Ascii.eqb c "&".

(** The value of a hexadecimal digit (0 for any other character). *)
Definition hex_value (c : ascii) : N :=
  let n := N_of_ascii c in
  if ((48 <=? n) && (n <=? 57))%N then (n - 48)%N
  else if ((65 <=? n) && (n <=? 70))%N then (n - 55)%N
  else 0%N.

(** Reading percent-encoded text back, byte by byte: an escape gives its
    byte, a plus sign a space.  It serves to show that [quote_plus] loses
    nothing. *)
Fixpoint pct_decode (s : string) : string :=
  match s with
  | EmptyString => EmptyString
  | String c r =>
      if Ascii.eqb c "%" then
        match r with
        | String h (String l r') =>
            String (ascii_of_N (16 * hex_value h + hex_value l)) (pct_decode r')
        | _ => String c (pct_decode r)
        end
      else if Ascii.eqb c "+" then String " " (pct_decode r)
      else String c (pct_decode r)
  end.

(** The URL [scrape_search_results] asks for:
    [BASE_URL+'/search?q'+urlencode({'':query})]. *)
Definition search_url (query : string) : string :=
  BASE_URL ++ "/search?q" ++ urlencode [(EmptyString, query)].

(** ** The parsed pages: what BeautifulSoup gives the scrapers *)

(** A node of the tree [BeautifulSoup(page.content, 'html.parser')]
    builds: a tag with its name, the value of its [class] attribute as the
    tree keeps it (a list of classes, [None] without the attribute), its
    other attributes and its children in document order; or a string. *)
#[warnings="-register-all"]
Inductive Node :=
| Elem (name : string) (classes : option (list string))
       (attrs : list (string * string)) (children : list Node)
| Text (s : string).

(** What [session.get] answers for a listing page: the cookies it sets
    and the parsed document (a node whose children are the top of the
    page). *)
Record HtmlPage := mkHtmlPage {
  html_cookies : list (string * string);
  html_soup : Node
}.

(** [tag.descendants]: the nodes below a tag, in document order. *)
Fixpoint descendants (n : Node) : list Node :=
  match n with
  | Elem _ _ _ cs => flat_map (fun c => c :: descendants c) cs
  | Text _ => []
  end.

(** How a search for [class_=want] (a non-empty string) tests the classes
    of a tag: one of the classes is [want], or the classes joined by
    spaces are [want]. *)
Definition class_matches (want : string) (classes : option (list string)) : bool :=
  match classes with
  | None => false
  | Some cs => existsb (String.eqb want) cs || (py_join " " cs =? want)
  end.

(** The test of [find(name)]. *)
Definition is_tag (name : string) (n : Node) : bool :=
  match n with
  | Elem nm _ _ _ => nm =? name
  | Text _ => false
  end.

(** The test of [find(name, class_=cls)]. *)
Definition is_tag_class (name cls : string) (n : Node) : bool :=
  match n with
  | Elem nm cl _ _ => (nm =? name) && class_matches cls cl
  | Text _ => false
  end.

(** [tag.find(...)]: the first descendant that passes the test, or
    [None]. *)
Definition soup_find (p : Node -> bool) (n : Node) : option Node :=
  find p (descendants n).

(** [tag.find_all(...)] *)
Definition find_all (p : Node -> bool) (n : Node) : list Node :=
  filter p (descendants n).

(** [tag.findChildren(..., recursive=False)]: the children that pass the
    test. *)
Definition findChildren (p : Node -> bool) (n : Node) : list Node :=
  match n with
  | Elem _ _ _ cs => filter p cs
  | Text _ => []
  end.

(** [d.get(key)] on a dictionary. *)
Fixpoint dict_get (key : string) (d : list (string * string)) : option string :=
  match d with
  | [] => None
  | (k, v) :: r => if k =? key then Some v else dict_get key r
  end.

(** [tag.get(key)] for an attribute other than [class]. *)
Definition tag_get (key : string) (n : Node) : option string :=
  match n with
  | Elem _ _ a _ => dict_get key a
  | Text _ => None
  end.

(** [x.attribute] or [x.method(...)] on the outcome of a [find]: on
    [None] it is an [AttributeError]. *)
Definition found (x : option Node) : result Node :=
  match x with
  | Some n => Ok n
  | None => Raise AttributeError
  end.

(** [BASE_URL + tag.get('src')]: adding [None] to a string is a
    [TypeError]. *)
Definition base_plus (v : option string) : result string :=
  match v with
  | Some s => Ok (BASE_URL ++ s)
  | None => Raise TypeError
  end.

(** A computation without effects inside [M]. *)
Definition lift {A} (r : result A) : M A :=
  match r with
  | Ok a => ret a
  | Raise e => raise e
  end.

(** [session.get(url, headers=headers)] and the parse of a listing
    page. *)
Definition soup_get (pages : string -> option HtmlPage) (url : string) : M Node :=
  fun w => match pages url with
           | Some p => (Ok (html_soup p),
                        mkWorld (thumbs w) (clock w) (fetched w)
                                (update_jar (cookies w) (html_cookies p))
                                (session_headers w))
           | None => (Raise RequestException, w)
           end.

(** ** The listings of videos *)

(** The three appends of the loop of [scrape_search_results],
    [scrape_explore_menu] and [scrape_category] for one [result]: the art
    URL, the navigation reference and the title (the last two are whatever
    [.get] gives, [None] included). *)
Definition scrape_entry (r : Node) : result (string * option string * option string) :=
  match found (soup_find (is_tag_class "div" "studio-episode-thumbnail") r) with
  | Raise e => Raise e
  | Ok thumb =>
      match found (soup_find (is_tag "img") thumb) with
      | Raise e => Raise e
      | Ok img =>
          match base_plus (tag_get "src" img) with
          | Raise e => Raise e
          | Ok art_url =>
              match found (soup_find (is_tag "div") r) with
              | Raise e => Raise e
              | Ok d1 =>
                  match found (soup_find (is_tag "div") r) with
                  | Raise e => Raise e
                  | Ok d2 =>
                      Ok (art_url, tag_get "data-episode-url" d1, tag_get "title" d2)
                  end
              end
          end
      end
  end.

(** The loop over [results]: the three lists, kept as one list of
    triples. *)
Fixpoint scrape_entries (results : list Node)
  : result (list (string * option string * option string)) :=
  match results with
  | [] => Ok []
  | r :: rest =>
      match scrape_entry r with
      | Raise e => Raise e
      | Ok x => match scrape_entries rest with
                | Raise e => Raise e
                | Ok xs => Ok (x :: xs)
                end
      end
  end.

(** The body of the loop of [__map_videos] when the title and the
    reference are what [.get] returned: [None.split] is an
    [AttributeError], and ["Title: " + None] a [TypeError] raised when the
    item is built, after the download. *)
Definition map_video_dyn (env : Env) (title video_url : option string)
    (art_url : string) : M TitleItem :=
  match video_url with
  | None => raise AttributeError
  | Some v =>
      channel <- index_or_raise (py_split "/" v) 2 ;;
      view <- index_or_raise (py_split "/" v) 4 ;;
      art <- download_fanart env art_url ;;
      match title with
      | None => raise TypeError
      | Some t =>
          ret (mkTitleItem t (play_video channel view) art art art
                 ("Title: " ++ t ++ newline ++ "Channel: " ++ channel) true)
      end
  end.

(** [__map_videos] on the lists the scrapers build (equal in length by
    construction). *)
Fixpoint map_videos_dyn (env : Env)
    (l : list (string * option string * option string)) : M (list TitleItem) :=
  match l with
  | [] => ret []
  | (art_url, video_url, title) :: r =>
      item <- map_video_dyn env title video_url art_url ;;
      items <- map_videos_dyn env r ;;
      ret (item :: items)
  end.

(** The container of the explore and search pages and its child
    [div]s. *)
Definition grid_results (soup : Node) : result (list Node) :=
  match found (soup_find (is_tag_class "div" "uk-grid-small uk-flex-center") soup) with
  | Raise e => Raise e
  | Ok grid => Ok (findChildren (is_tag "div") grid)
  end.

Definition scrape_search_results (env : Env) (pages : string -> option HtmlPage)
    (query : string) : M (list TitleItem) :=
  soup <- soup_get pages (search_url query) ;;
  results <- lift (grid_results soup) ;;
  entries <- lift (scrape_entries results) ;;
  map_videos_dyn env entries.

Definition scrape_explore_menu (env : Env) (pages : string -> option HtmlPage)
  : M (list TitleItem) :=
  soup <- soup_get pages BASE_URL ;;
  results <- lift (grid_results soup) ;;
  entries <- lift (scrape_entries results) ;;
  map_videos_dyn env entries.

(** The class of the cards of a category page. *)
Definition card_class : string :=
  "uk-width-1-1 uk-width-1-2@s uk-width-1-3@m uk-width-1-4@l uk-width-1-5@xl".

Definition scrape_category (env : Env) (pages : string -> option HtmlPage)
    (category : string) : M (list TitleItem) :=
  soup <- soup_get pages (BASE_URL ++ "/category/" ++ category) ;;
  let results := find_all (is_tag_class "div" card_class) soup in
  entries <- lift (scrape_entries results) ;;
  map_videos_dyn env entries.

(** ** The index of categories *)

(** Modelled from the spec: the [TitleItem] that [list_categories] builds
    (the spec's CategoryRef): a label, which is the first node inside the
    label [div], the route of the category and the art. *)
Record CategoryItem := mkCategoryItem {
  cat_label : Node;
  cat_path : Route;
  cat_thumb : string;
  cat_fanart : string;
  cat_icon : string
}.

(** [tag.contents[0]] *)
Definition first_content (n : Node) : result Node :=
  match n with
  | Elem _ _ _ (c :: _) => Ok c
  | _ => Raise IndexError
  end.

(** [tag.get('href').split('/')[-1]] *)
Definition href_slug (a : Node) : result string :=
  match tag_get "href" a with
  | Some h => Ok (py_last (py_split "/" h))
  | None => Raise AttributeError
  end.

(** The body of the loop of [list_categories]. *)
Definition category_entry (env : Env) (r : Node) : M CategoryItem :=
  img <- lift (found (soup_find (is_tag "img") r)) ;;
  art_url <- lift (base_plus (tag_get "src" img)) ;;
  art <- download_fanart env art_url ;;
  d <- lift (found (soup_find (is_tag_class "div" "uk-text-bold uk-text-truncate") r)) ;;
  lbl <- lift (first_content d) ;;
  a <- lift (found (soup_find (is_tag "a") r)) ;;
  category <- lift (href_slug a) ;;
  ret (mkCategoryItem lbl (categories (Some category)) art art art).

Fixpoint category_entries (env : Env) (results : list Node) : M (list CategoryItem) :=
  match results with
  | [] => ret []
  | r :: rest =>
      item <- category_entry env r ;;
      items <- category_entries env rest ;;
      ret (item :: items)
  end.

Definition list_categories (env : Env) (pages : string -> option HtmlPage)
  : M (list CategoryItem) :=
  soup <- soup_get pages (BASE_URL ++ "/category") ;;
  grid <- lift (found (soup_find (is_tag_class "div" "uk-flex-center") soup)) ;;
  category_entries env (findChildren (is_tag "div") grid).

(** ** Playback: [GabTV.play_video] of [gab.py] *)

(** [bool(s)] of a string. *)
Definition py_bool (s : string) : bool :=
  match s with
  | EmptyString => false
  | String _ _ => true
  end.

(** What [GabTV.play_video] hands to [xbmcplugin.setResolvedUrl]: the
    [succeeded] flag [bool(url)] and the path of the list item. *)
Definition GabTV_play_video (env : Env) (channel view : string) : M (bool * string) :=
  url <- retrieve_video_url env channel view ;;
  ret (py_bool url, url).

(** An item of a video listing read off a result element of the page: the
    title and the reference are attributes of the first [div] inside the
    element, the route is made of the segments 2 and 4 of the reference,
    the item is playable, and its art was asked at the base URL followed
    by the [src] of the first image of the thumbnail [div]. *)
Definition entry_of (r : Node) (item : TitleItem) : Prop :=
  exists d ref thumb img src,
    soup_find (is_tag "div") r = Some d /\
    tag_get "title" d = Some (label item) /\
    tag_get "data-episode-url" d = Some ref /\
    path item = play_video (segment ref 2) (segment ref 4) /\
    is_playable item = true /\
    soup_find (is_tag_class "div" "studio-episode-thumbnail") r = Some thumb /\
    soup_find (is_tag "img") thumb = Some img /\
    tag_get "src" img = Some src.

(** An entry of the index of categories read off a result element. *)
Definition category_of (r : Node) (item : CategoryItem) : Prop :=
  exists a href d,
    soup_find (is_tag "a") r = Some a /\
    tag_get "href" a = Some href /\
    cat_path item = categories (Some (py_last (py_split "/" href))) /\
    (forall prefix slug, href = prefix ++ "/" ++ slug -> has_char "/" slug = false ->
                         cat_path item = categories (Some slug)) /\
    soup_find (is_tag_class "div" "uk-text-bold uk-text-truncate") r = Some d /\
    first_content d = Ok (cat_label item) /\
    cat_fanart item = cat_thumb item /\ cat_icon item = cat_thumb item.

(** The world after [session.get] has answered with page [p]. *)
Definition after_get (p : HtmlPage) (w : World) : World :=
  mkWorld (thumbs w) (clock w) (fetched w)
          (update_jar (cookies w) (html_cookies p)) (session_headers w).

(** One card of a listing page. *)
Definition sample_card (title ref src : string) : Node :=
  Elem "div" None []
    [Elem "div" (Some ["studio-episode"]) [("data-episode-url", ref); ("title", title)]
       [Elem "div" (Some ["studio-episode-thumbnail"]) []
          [Elem "img" None [("src", src)] []]]].

(** A listing page with two cards in its grid. *)
Definition sample_listing : HtmlPage :=
  mkHtmlPage []
    (Elem "[document]" None []
       [Elem "div" (Some ["uk-grid-small"; "uk-flex-center"]) []
          [sample_card "T1" "/channel/C1/view/V1" "/img/a";
           Text " ";
           sample_card "T2" "/channel/C2/view/V2" "/img/b"]]).

(** An index page with one category. *)
Definition sample_index : HtmlPage :=
  mkHtmlPage []
    (Elem "[document]" None []
       [Elem "div" (Some ["uk-grid"; "uk-flex-center"]) []
          [Elem "div" None []
             [Elem "a" None [("href", "/category/horror")]
                [Elem "img" None [("src", "/img/h")] []];
              Elem "div" (Some ["uk-text-bold"; "uk-text-truncate"]) []
                [Text "Horror"]]]]).

(** A page without any [div], as an error page is. *)
Definition sample_error_page : HtmlPage :=
  mkHtmlPage [("sid", "1")]
    (Elem "[document]" None [] [Elem "p" None [] [Text "Service unavailable"]]).

(** ** The bandwidth limit: [get_max_bandwidth] of [kodiutils.py] *)

(** [get_max_bandwidth()], given the outcomes of
    [int(get_setting('max_bandwidth', default='0'))] and of
    [int(get_global_setting('network.bandwidth'))], read in that order. *)
Definition get_max_bandwidth (gabtv_max_bandwidth global_max_bandwidth : result Z)
  : result Z :=
  match gabtv_max_bandwidth with
  | Raise e => Raise e
  | Ok g =>
      match global_max_bandwidth with
      | Raise e => Raise e
      | Ok k =>
          if negb (g =? 0)%Z && negb (k =? 0)%Z then Ok (Z.min g k)
          else if negb (g =? 0)%Z then Ok g
          else if negb (k =? 0)%Z then Ok k
          else Ok 0%Z
      end
  end.

(** A listing page whose second card has no image. *)
Definition sample_broken_listing : HtmlPage :=
  mkHtmlPage []
    (Elem "[document]" None []
       [Elem "div" (Some ["uk-grid-small"; "uk-flex-center"]) []
          [sample_card "T1" "/channel/C1/view/V1" "/img/a";
           Elem "div" None []
             [Elem "div" (Some ["studio-episode"])
                [("data-episode-url", "/channel/C2/view/V2"); ("title", "T2")]
                [Elem "div" (Some ["studio-episode-thumbnail"]) [] []]]]]).

(** Are the strings of the list pairwise different? *)
Fixpoint all_distinct (l : list string) : bool :=
  match l with
  | [] => true
  | x :: r => negb (existsb (String.eqb x) r) && all_distinct r
  end.

(** A jar that [kodi_header] can read: no two cookies of the same name,
    no cookie with an empty value. *)
Definition jar_ok (jar : list (string * string)) : bool :=
  all_distinct (map fst jar) && forallb (fun c => negb (snd c =? EmptyString)) jar.

(** ** Facts about the string primitives *)

Lemma py_split_not_nil (c : ascii) (s : string) : py_split c s <> [].
Proof.
  destruct s as [|a r]; simpl; [discriminate|].
  destruct (Ascii.eqb a c); [discriminate|].
  destruct (py_split c r); discriminate.
Qed.

Lemma py_last_split_no_sep (c : ascii) (s : string) :
  has_char c (py_last (py_split c s)) = false.
Proof.
  unfold py_last. induction s as [|a r IH]; simpl; [reflexivity|].
  destruct (Ascii.eqb a c) eqn:E.
  - destruct (py_split c r) eqn:S; [exfalso; eapply py_split_not_nil; eauto|].
    exact IH.
  - destruct (py_split c r) as [|h t] eqn:S; [exfalso; eapply py_split_not_nil; eauto|].
    destruct t as [|h' t'].
    + simpl in *. rewrite E, IH. reflexivity.
    + exact IH.
Qed.

Lemma has_char_app (c : ascii) (x y : string) :
  has_char c (x ++ y) = has_char c x || has_char c y.
Proof.
  induction x as [|a r IH]; simpl; [reflexivity|].
  rewrite IH, orb_assoc. reflexivity.
Qed.

Lemma rcut_none (c : ascii) (s : string) :
  has_char c s = false -> rcut c s = None.
Proof.
  induction s as [|a r IH]; simpl; [reflexivity|].
  intros H. apply orb_false_iff in H as [Ha Hr].
  rewrite (IH Hr), Ha. reflexivity.
Qed.

Lemma rcut_last (c : ascii) (x e : string) :
  has_char c e = false -> rcut c (x ++ String c e) = Some (x, String c e).
Proof.
  intros He. induction x as [|a r IH]; simpl.
  - rewrite (rcut_none _ _ He), Ascii.eqb_refl. reflexivity.
  - rewrite IH. reflexivity.
Qed.

(** The root of [root.ext] is [root] when neither has a slash, the
    extension has no dot and the root is not made of dots alone. *)
Lemma splitext_root (x e : string) :
  has_char "/" x = false -> has_char "/" e = false ->
  has_char "." e = false -> all_char "." x = false ->
  splitext (x ++ "." ++ e) = (x, "." ++ e).
Proof.
  intros Hx He Hd Ha. unfold splitext.
  rewrite rcut_none.
  - simpl. rewrite (rcut_last "." x e Hd), Ha. reflexivity.
  - rewrite has_char_app. simpl. rewrite Hx, He. reflexivity.
Qed.

Lemma is_cached_cache_name (key ext : string) :
  has_char "/" key = false -> has_char "/" ext = false ->
  has_char "." ext = false ->
  is_cached key (cache_name key ext) = true.
Proof.
  intros Hk He Hd. unfold is_cached, cache_name.
  replace ("gabtv_" ++ key ++ "." ++ ext) with (("gabtv_" ++ key) ++ "." ++ ext)
    by reflexivity.
  rewrite splitext_root; [simpl; apply String.eqb_refl | simpl; exact Hk | exact He | exact Hd | reflexivity].
Qed.

Lemma extension_no_slash (r : Response) : has_char "/" (extension_of r) = false.
Proof.
  unfold extension_of, header_content_type.
  destruct (content_type r); simpl; [apply py_last_split_no_sep | reflexivity].
Qed.

(** Python's answers on a few inputs. *)

Example py_split_watch :
  py_split "/" "/watch/CHAN42/view/V99/extra"
  = [EmptyString; "watch"; "CHAN42"; "view"; "V99"; "extra"].
Proof. reflexivity. Qed.

Example py_split_empty : py_split "/" EmptyString = [EmptyString].
Proof. reflexivity. Qed.

Example splitext_png : splitext "gabtv_x.png" = ("gabtv_x", ".png").
Proof. reflexivity. Qed.

Example splitext_dotfile : splitext ".cshrc" = (".cshrc", EmptyString).
Proof. reflexivity. Qed.

Example splitext_icon :
  splitext "gabtv_k.vnd.microsoft.icon" = ("gabtv_k.vnd.microsoft", ".icon").
Proof. reflexivity. Qed.

Example splitext_dir : splitext "a.b/c" = ("a.b/c", EmptyString).
Proof. reflexivity. Qed.

Example os_path_join_dir :
  os_path_join "/addon/" ["resources"; "thumbnails"; "f.png"]
  = "/addon/resources/thumbnails/f.png".
Proof. reflexivity. Qed.

Example py_slice_negative : py_slice_to [1; 2; 3] (-2) = [1].
Proof. reflexivity. Qed.

Example py_slice_beyond : py_slice_to [1; 2; 3] 5 = [1; 2; 3].
Proof. reflexivity. Qed.

Example py_slice_far_negative : py_slice_to [1; 2; 3] (-7) = [].
Proof. reflexivity. Qed.

Example quote_cookie : quote "a=1;b=x y" = "a%3D1%3Bb%3Dx%20y".
Proof. reflexivity. Qed.

Example urlencode_agent :
  urlencode [("User-agent", "Mozilla/5.0 (X11)")] = "User-agent=Mozilla%2F5.0+%28X11%29".
Proof. reflexivity. Qed.

(** ** Facts about the sort by modification time *)

Lemma insert_by_mtime_perm (f : File) (l : list File) :
  Permutation (insert_by_mtime f l) (f :: l).
Proof.
  induction l as [|g r IH]; simpl; [constructor; constructor|].
  destruct (mtime f <=? mtime g)%nat; [reflexivity|].
  rewrite IH. apply perm_swap.
Qed.

Lemma sort_by_mtime_perm (l : list File) : Permutation (sort_by_mtime l) l.
Proof.
  induction l as [|f r IH]; simpl; [constructor|].
  rewrite insert_by_mtime_perm. constructor. exact IH.
Qed.

Lemma sort_by_mtime_length (l : list File) :
  List.length (sort_by_mtime l) = List.length l.
Proof. apply Permutation_length, sort_by_mtime_perm. Qed.

Lemma sorted_ls_length (l : list File) :
  List.length (sorted_ls l) = List.length l.
Proof. unfold sorted_ls. rewrite length_map. apply sort_by_mtime_length. Qed.

Lemma insert_by_mtime_sorted (f : File) (l : list File) :
  StronglySorted older l -> StronglySorted older (insert_by_mtime f l).
Proof.
  induction 1 as [|g r Hs IH Hall]; simpl.
  - constructor; constructor.
  - destruct (mtime f <=? mtime g)%nat eqn:E.
    + apply Nat.leb_le in E. constructor.
      * constructor; assumption.
      * constructor; [exact E|].
        eapply Forall_impl; [|exact Hall]. unfold older. intros; lia.
    + apply Nat.leb_gt in E. constructor; [exact IH|].
      eapply Permutation_Forall; [symmetry; apply insert_by_mtime_perm|].
      constructor; [unfold older; lia | exact Hall].
Qed.

Lemma sort_by_mtime_sorted (l : list File) : StronglySorted older (sort_by_mtime l).
Proof.
  induction l as [|f r IH]; simpl; [constructor|].
  apply insert_by_mtime_sorted, IH.
Qed.

(** The sort is stable, so it commutes with the removal of files. *)
Lemma filter_insert_by_mtime (p : File -> bool) (f : File) (l : list File) :
  StronglySorted older l ->
  filter p (insert_by_mtime f l)
  = if p f then insert_by_mtime f (filter p l) else filter p l.
Proof.
  induction 1 as [|g r Hs IH Hall]; simpl.
  - destruct (p f); reflexivity.
  - destruct (mtime f <=? mtime g)%nat eqn:E; simpl.
    + destruct (p f) eqn:Pf; [|reflexivity].
      destruct (p g) eqn:Pg; simpl; [rewrite E; reflexivity|].
      (* g is dropped: f still comes before whatever of r is kept *)
      apply Nat.leb_le in E.
      assert (Hr : Forall (fun h => mtime f <= mtime h) (filter p r)).
      { apply Forall_forall. intros h Hh. apply filter_In in Hh as [Hh _].
        rewrite Forall_forall in Hall. specialize (Hall h Hh).
        unfold older in Hall. lia. }
      destruct (filter p r) as [|h t]; [reflexivity|].
      simpl. inversion Hr as [|? ? Hh _]; subst.
      apply Nat.leb_le in Hh. rewrite Hh. reflexivity.
    + rewrite IH. destruct (p g) eqn:Pg; destruct (p f) eqn:Pf; simpl;
        try rewrite E; reflexivity.
Qed.

Lemma sort_by_mtime_filter (p : File -> bool) (l : list File) :
  sort_by_mtime (filter p l) = filter p (sort_by_mtime l).
Proof.
  induction l as [|f r IH]; simpl; [reflexivity|].
  rewrite filter_insert_by_mtime by apply sort_by_mtime_sorted.
  destruct (p f); simpl; rewrite IH; reflexivity.
Qed.

Lemma sort_by_mtime_nodup (l : list File) :
  NoDup (map fname l) -> NoDup (map fname (sort_by_mtime l)).
Proof.
  apply Permutation_NoDup, Permutation_map. symmetry. apply sort_by_mtime_perm.
Qed.

(** A file newer than all the others comes last. *)
Lemma insert_by_mtime_snoc (g f : File) (l : list File) :
  mtime g <= mtime f ->
  (insert_by_mtime g (l ++ [f]) = insert_by_mtime g l ++ [f])%list.
Proof.
  intros H. induction l as [|h r IH]; simpl.
  - apply Nat.leb_le in H. rewrite H. reflexivity.
  - destruct (mtime g <=? mtime h)%nat; [reflexivity|]. rewrite IH. reflexivity.
Qed.

Lemma sort_by_mtime_snoc (f : File) (l : list File) :
  Forall (fun g => mtime g <= mtime f) l ->
  (sort_by_mtime (l ++ [f]) = sort_by_mtime l ++ [f])%list.
Proof.
  induction 1 as [|g r Hg Hr IH]; simpl; [reflexivity|].
  rewrite IH. apply insert_by_mtime_snoc, Hg.
Qed.

(** ** Facts about the removal of files *)

Lemma remove_all_nil (fs : list File) : remove_all [] fs = fs.
Proof.
  unfold remove_all. induction fs as [|f r IH]; simpl; [reflexivity|].
  f_equal. exact IH.
Qed.

Lemma remove_all_cons (x : string) (dl : list string) (fs : list File) :
  remove_all (x :: dl) fs
  = remove_all dl (filter (fun f => negb (has_name x f)) fs).
Proof.
  induction fs as [|f r IH]; [reflexivity|].
  unfold remove_all in *. cbn [existsb] in IH |- *. cbn [filter].
  unfold has_name at 1.
  destruct (fname f =? x); cbn [orb negb filter]; rewrite IH; reflexivity.
Qed.

Lemma existsb_has_name (x : string) (fs : list File) :
  In x (map fname fs) -> existsb (has_name x) fs = true.
Proof.
  intros H. apply in_map_iff in H as (f & Hf & Hin).
  apply existsb_exists. exists f. split; [exact Hin|].
  unfold has_name. rewrite Hf. apply String.eqb_refl.
Qed.

Lemma in_names_filter (x y : string) (fs : list File) :
  In y (map fname fs) -> y <> x ->
  In y (map fname (filter (fun f => negb (has_name x f)) fs)).
Proof.
  intros H Hne. apply in_map_iff in H as (f & Hf & Hin).
  apply in_map_iff. exists f. split; [exact Hf|].
  apply filter_In. split; [exact Hin|].
  unfold has_name. rewrite Hf. apply negb_true_iff, String.eqb_neq, Hne.
Qed.

(** The deletion loop succeeds on names that are there, each once. *)
Lemma for_each_remove (dl : list string) :
  forall w, NoDup dl -> incl dl (map fname (thumbs w)) ->
  for_each dl os_remove w = (Ok tt, set_thumbs (remove_all dl (thumbs w)) w).
Proof.
  induction dl as [|x r IH]; intros w Hnd Hin; simpl.
  - rewrite remove_all_nil. destruct w; reflexivity.
  - unfold bind, os_remove at 1.
    rewrite existsb_has_name by (apply Hin; left; reflexivity).
    inversion Hnd as [|? ? Hx Hr]; subst.
    rewrite IH; [|exact Hr|].
    + rewrite remove_all_cons. destruct w; reflexivity.
    + intros y Hy. simpl. apply in_names_filter.
      * apply Hin. right. exact Hy.
      * intros ->. contradiction.
Qed.

(** Removing the names of the first [k] files of a listing without
    repeated names leaves the rest of the listing. *)
Lemma remove_all_prefix (k : nat) (s : list File) :
  NoDup (map fname s) ->
  remove_all (map fname (firstn k s)) s = skipn k s.
Proof.
  revert k. induction s as [|f r IH]; intros k Hnd.
  - destruct k; reflexivity.
  - destruct k as [|k]; [apply remove_all_nil|].
    simpl firstn. simpl map. rewrite remove_all_cons. simpl.
    unfold has_name at 1. rewrite String.eqb_refl. simpl.
    inversion Hnd as [|? ? Hf Hr]; subst.
    replace (filter (fun g => negb (has_name (fname f) g)) r) with r.
    + apply IH, Hr.
    + symmetry. apply forallb_filter_id. apply forallb_forall. intros g Hg.
      unfold has_name. apply negb_true_iff, String.eqb_neq. intros E.
      apply Hf. rewrite <- E. apply in_map, Hg.
Qed.

(** ** The eviction step *)

Lemma del_list_firstn (fs : list File) (m : Z) :
  del_list fs m
  = map fname (firstn (evict_count (List.length fs) m) (sort_by_mtime fs)).
Proof.
  unfold del_list, py_slice_to, evict_count.
  rewrite !sorted_ls_length. unfold sorted_ls. apply firstn_map.
Qed.

Lemma evict_count_le (n : nat) (m : Z) : evict_count n m <= n.
Proof. unfold evict_count, slice_end. destruct (_ <? 0)%Z eqn:E; lia. Qed.

Lemma evict_count_nonpos (n : nat) (m : Z) : (m <= 0)%Z -> evict_count n m = n.
Proof. unfold evict_count, slice_end. destruct (_ <? 0)%Z eqn:E; lia. Qed.

Lemma evict_count_over (n : nat) (m : Z) :
  (0 <= m <= Z.of_nat n)%Z -> evict_count n m = n - Z.to_nat m.
Proof. unfold evict_count, slice_end. destruct (_ <? 0)%Z eqn:E; lia. Qed.

Lemma evict_count_bound (n : nat) (m : Z) :
  (0 <= m)%Z -> (Z.of_nat (n - evict_count n m) <= m)%Z.
Proof. unfold evict_count, slice_end. destruct (_ <? 0)%Z eqn:E; lia. Qed.

Lemma evict_count_keeps_one (n : nat) (m : Z) :
  (1 <= m)%Z -> 1 <= n -> evict_count n m < n.
Proof. unfold evict_count, slice_end. destruct (_ <? 0)%Z eqn:E; lia. Qed.

Lemma firstn_incl {A} (k : nat) (l : list A) : incl (firstn k l) l.
Proof.
  revert k. induction l as [|a r IH]; intros [|k]; simpl; intros x Hx;
    try contradiction.
  destruct Hx as [->|Hx]; [left; reflexivity | right; eapply IH; eauto].
Qed.

Lemma firstn_nodup {A} (k : nat) (l : list A) : NoDup l -> NoDup (firstn k l).
Proof.
  revert k. induction l as [|a r IH]; intros [|k] H; simpl; try constructor.
  - inversion H; subst. intros Hin. apply firstn_incl in Hin. contradiction.
  - inversion H; subst. apply IH. assumption.
Qed.

(** In a directory the eviction never raises once the setting is read: it
    removes exactly the files of the deletion list. *)
Lemma evict_ok (env : Env) (w : World) (m : Z) :
  wf_dir w -> cache_size env = Ok m ->
  evict env w
  = (Ok tt, set_thumbs (remove_all (del_list (thumbs w) m) (thumbs w)) w).
Proof.
  intros Hwf Hm. unfold evict, bind, gets, ret. rewrite Hm.
  apply for_each_remove.
  - rewrite del_list_firstn, <- firstn_map.
    apply firstn_nodup, sort_by_mtime_nodup, Hwf.
  - rewrite del_list_firstn, <- firstn_map. intros x Hx.
    apply firstn_incl in Hx.
    eapply Permutation_in; [|exact Hx].
    apply Permutation_map, sort_by_mtime_perm.
Qed.

(** The survivors of the eviction, oldest first, are the listing without
    its first [evict_count] names. *)
Lemma sorted_ls_after_evict (fs : list File) (m : Z) :
  NoDup (map fname fs) ->
  sorted_ls (remove_all (del_list fs m) fs)
  = skipn (evict_count (List.length fs) m) (sorted_ls fs).
Proof.
  intros Hnd. unfold sorted_ls at 1. unfold remove_all.
  rewrite sort_by_mtime_filter. fold (remove_all (del_list fs m) (sort_by_mtime fs)).
  rewrite del_list_firstn, remove_all_prefix by (apply sort_by_mtime_nodup, Hnd).
  unfold sorted_ls. symmetry. apply skipn_map.
Qed.

Lemma length_after_evict (fs : list File) (m : Z) :
  NoDup (map fname fs) ->
  List.length (remove_all (del_list fs m) fs)
  = List.length fs - evict_count (List.length fs) m.
Proof.
  intros Hnd. rewrite <- (sorted_ls_length (remove_all _ _)).
  rewrite sorted_ls_after_evict by exact Hnd.
  rewrite length_skipn, sorted_ls_length. reflexivity.
Qed.

Lemma remove_all_nodup (dl : list string) (fs : list File) :
  NoDup (map fname fs) -> NoDup (map fname (remove_all dl fs)).
Proof.
  unfold remove_all. induction fs as [|f r IH]; simpl; intros H; [constructor|].
  inversion H as [|? ? Hf Hr]; subst.
  destruct (negb _); simpl; [|apply IH, Hr].
  constructor; [|apply IH, Hr].
  intros Hin. apply Hf. apply in_map_iff in Hin as (g & Hg & Hin).
  apply filter_In in Hin as [Hin _]. rewrite <- Hg. apply in_map, Hin.
Qed.

Lemma put_file_names (f : File) (fs : list File) :
  map fname (put_file f fs)
  = if existsb (has_name (fname f)) fs then map fname fs
    else (map fname fs ++ [fname f])%list.
Proof.
  induction fs as [|g r IH]; simpl; [reflexivity|].
  unfold has_name at 1. destruct (fname g =? fname f) eqn:E; simpl.
  - apply String.eqb_eq in E. rewrite E. reflexivity.
  - rewrite IH. destruct (existsb _ r); reflexivity.
Qed.

Lemma put_file_nodup (f : File) (fs : list File) :
  NoDup (map fname fs) -> NoDup (map fname (put_file f fs)).
Proof.
  intros H. rewrite put_file_names.
  destruct (existsb (has_name (fname f)) fs) eqn:E; [exact H|].
  apply NoDup_app; [exact H | repeat constructor; intros [] |].
  intros x Hx [<-|[]].
  rewrite existsb_has_name in E by exact Hx. discriminate.
Qed.

Lemma put_file_fresh (f : File) (fs : list File) :
  ~ In (fname f) (map fname fs) -> put_file f fs = (fs ++ [f])%list.
Proof.
  induction fs as [|g r IH]; simpl; intros H; [reflexivity|].
  destruct (fname g =? fname f) eqn:E.
  - apply String.eqb_eq in E. exfalso. apply H. left. exact E.
  - rewrite IH; [reflexivity|]. intros Hin. apply H. right. exact Hin.
Qed.

(** ** The two halves of [download_fanart] *)

Lemma lookup_hit (env : Env) (url : string) (w : World) (s : string) :
  find (is_cached (url_key url)) (map fname (thumbs w)) = Some s ->
  lookup_or_fetch env url w = (Ok (thumb_path env s), w).
Proof.
  intros H. unfold lookup_or_fetch, bind, os_listdir, gets.
  fold (url_key url). rewrite H. reflexivity.
Qed.

Lemma lookup_miss (env : Env) (url : string) (w : World) (r : Response) :
  find (is_cached (url_key url)) (map fname (thumbs w)) = None ->
  http_get env url = Some r ->
  lookup_or_fetch env url w
  = (Ok (thumb_path env (cache_name (url_key url) (extension_of r))),
     mkWorld (put_file (mkFile (cache_name (url_key url) (extension_of r))
                               (clock w) (content r)) (thumbs w))
             (S (clock w)) (url :: fetched w) (cookies w) (session_headers w)).
Proof.
  intros H Hr. unfold lookup_or_fetch, bind, os_listdir, gets.
  fold (url_key url). rewrite H. unfold requests_get. rewrite Hr. reflexivity.
Qed.

Lemma lookup_miss_fails (env : Env) (url : string) (w : World) :
  find (is_cached (url_key url)) (map fname (thumbs w)) = None ->
  http_get env url = None ->
  lookup_or_fetch env url w
  = (Raise RequestException,
     mkWorld (thumbs w) (clock w) (url :: fetched w) (cookies w) (session_headers w)).
Proof.
  intros H Hr. unfold lookup_or_fetch, bind, os_listdir, gets.
  fold (url_key url). rewrite H. unfold requests_get. rewrite Hr. reflexivity.
Qed.

Lemma lookup_wf (env : Env) (url : string) (w w1 : World) (r : result string) :
  wf_dir w -> lookup_or_fetch env url w = (r, w1) -> wf_dir w1.
Proof.
  intros Hwf H.
  destruct (find (is_cached (url_key url)) (map fname (thumbs w))) as [s|] eqn:F.
  - rewrite (lookup_hit _ _ _ _ F) in H. inversion H; subst. exact Hwf.
  - destruct (http_get env url) as [resp|] eqn:G.
    + rewrite (lookup_miss _ _ _ _ F G) in H. inversion H; subst.
      unfold wf_dir. simpl. apply put_file_nodup, Hwf.
    + rewrite (lookup_miss_fails _ _ _ F G) in H. inversion H; subst. exact Hwf.
Qed.

(** A call that returns has found or written its file and then evicted. *)
Lemma download_fanart_ok (env : Env) (url : string) (w w' : World) (f : string) (m : Z) :
  wf_dir w -> cache_size env = Ok m ->
  download_fanart env url w = (Ok f, w') ->
  exists w1, lookup_or_fetch env url w = (Ok f, w1) /\ wf_dir w1 /\
             w' = set_thumbs (remove_all (del_list (thumbs w1) m) (thumbs w1)) w1.
Proof.
  intros Hwf Hm H. unfold download_fanart, bind in H.
  destruct (lookup_or_fetch env url w) as [[f1|e] w1] eqn:L; [|discriminate].
  assert (Hwf1 : wf_dir w1) by (eapply lookup_wf; eauto).
  rewrite (evict_ok _ _ _ Hwf1 Hm) in H. unfold ret in H. inversion H; subst.
  exists w1. auto.
Qed.

Lemma download_fanart_wf (env : Env) (url : string) (w w' : World) (f : string) (m : Z) :
  wf_dir w -> cache_size env = Ok m ->
  download_fanart env url w = (Ok f, w') -> wf_dir w'.
Proof.
  intros Hwf Hm H.
  destruct (download_fanart_ok _ _ _ _ _ _ Hwf Hm H) as (w1 & _ & Hwf1 & ->).
  unfold wf_dir. simpl. apply remove_all_nodup, Hwf1.
Qed.

Lemma download_all_wf (env : Env) (m : Z) (urls : list string) :
  cache_size env = Ok m ->
  forall w w' fs, wf_dir w -> download_all env urls w = (Ok fs, w') -> wf_dir w'.
Proof.
  intros Hm. induction urls as [|u r IH]; intros w w' fs Hwf H; simpl in H.
  - inversion H; subst. exact Hwf.
  - unfold bind in H.
    destruct (download_fanart env u w) as [[f|e] w1] eqn:D; [|discriminate].
    destruct (download_all env r w1) as [[fr|e] w2] eqn:A; [|discriminate].
    inversion H; subst. eapply IH; [|exact A]. eapply download_fanart_wf; eauto.
Qed.

(** The last call of a run that returns. *)
Lemma download_all_snoc (env : Env) (urls : list string) (u : string) :
  forall w w' fs,
  download_all env (urls ++ [u])%list w = (Ok fs, w') ->
  exists fs0 w0 f, download_all env urls w = (Ok fs0, w0) /\
                   download_fanart env u w0 = (Ok f, w') /\
                   fs = (fs0 ++ [f])%list.
Proof.
  induction urls as [|v r IH]; intros w w' fs H; simpl in H; unfold bind in H.
  - destruct (download_fanart env u w) as [[f|e] w1] eqn:D; [|discriminate].
    unfold ret in H. inversion H; subst. exists [], w, f. auto.
  - destruct (download_fanart env v w) as [[g|e] w1] eqn:D; [|discriminate].
    destruct (download_all env (r ++ [u])%list w1) as [[fr|e] w2] eqn:A; [|discriminate].
    unfold ret in H. inversion H; subst.
    destruct (IH _ _ _ A) as (fs0 & w0 & f & A0 & D0 & ->).
    exists (g :: fs0), w0, f. simpl. unfold bind. rewrite D, A0. auto.
Qed.

Lemma sorted_app_older (a b : list File) :
  StronglySorted older (a ++ b)%list ->
  Forall (fun d => Forall (older d) b) a.
Proof.
  induction a as [|x r IH]; simpl; intros H; [constructor|].
  inversion H as [|? ? Hs Hall]; subst. constructor; [|apply IH, Hs].
  apply Forall_app in Hall. apply Hall.
Qed.

Lemma sort_after_evict (fs : list File) (m : Z) :
  NoDup (map fname fs) ->
  sort_by_mtime (remove_all (del_list fs m) fs)
  = skipn (evict_count (List.length fs) m) (sort_by_mtime fs).
Proof.
  intros Hnd. unfold remove_all.
  rewrite sort_by_mtime_filter. fold (remove_all (del_list fs m) (sort_by_mtime fs)).
  rewrite del_list_firstn. apply remove_all_prefix, sort_by_mtime_nodup, Hnd.
Qed.

Lemma remove_all_covered (dl : list string) (fs : list File) :
  incl (map fname fs) dl -> remove_all dl fs = [].
Proof.
  unfold remove_all. induction fs as [|f r IH]; simpl; intros H; [reflexivity|].
  assert (E : existsb (String.eqb (fname f)) dl = true).
  { apply existsb_exists. exists (fname f). split; [apply H; left; reflexivity|].
    apply String.eqb_refl. }
  rewrite E. simpl. apply IH. intros x Hx. apply H. right. exact Hx.
Qed.

Lemma remove_all_incl (dl : list string) (fs : list File) :
  incl (remove_all dl fs) fs.
Proof. intros f Hf. apply filter_In in Hf. apply Hf. Qed.

(** ** The cache bound *)

(** C1, as stated, fails.  With [cache_size = 2], three distinct URLs with
    the same final path segment share one cache entry, so one file is left,
    not two; and with [cache_size = 3], four URLs with distinct final
    segments leave one file, not three (the negative end of the slice of
    the eviction). *)
Lemma C1_counterexample :
  NoDup ["https://tv.gab.com/a/x"; "https://tv.gab.com/b/x"; "https://tv.gab.com/c/x"]
  /\ map fname (thumbs (snd (download_all (env_cache 2)
       ["https://tv.gab.com/a/x"; "https://tv.gab.com/b/x"; "https://tv.gab.com/c/x"]
       w_empty))) = ["gabtv_x.png"]
  /\ fst (download_all (env_cache 2)
       ["https://tv.gab.com/a/x"; "https://tv.gab.com/b/x"; "https://tv.gab.com/c/x"]
       w_empty)
     = Ok ["/addon/resources/thumbnails/gabtv_x.png";
           "/addon/resources/thumbnails/gabtv_x.png";
           "/addon/resources/thumbnails/gabtv_x.png"]
  /\ map fname (thumbs (snd (download_all (env_cache 3)
       ["https://tv.gab.com/a"; "https://tv.gab.com/b"; "https://tv.gab.com/c";
        "https://tv.gab.com/d"] w_empty))) = ["gabtv_d.png"].
Proof.
  split; [|vm_compute; auto].
  repeat constructor; simpl; intuition discriminate.
Qed.

(** C1, amended: after the last call of a run that completes, with
    [cache_size >= 0], the directory holds at most [cache_size] files; they
    are the most recently modified of the files present when the eviction
    of that call starts (the deleted ones, [old], are a prefix of the
    listing by ascending modification time, each at most as recent as every
    file kept); and exactly [cache_size] files are left when at least that
    many were present. *)
Theorem C1_cache_bound (env : Env) (urls : list string) (u : string)
    (w w' : World) (fs : list string) (m : Z) :
  wf_dir w -> cache_size env = Ok m -> (0 <= m)%Z ->
  download_all env (urls ++ [u])%list w = (Ok fs, w') ->
  exists fs0 w0 f w1 old,
    download_all env urls w = (Ok fs0, w0) /\ fs = (fs0 ++ [f])%list /\
    lookup_or_fetch env u w0 = (Ok f, w1) /\
    sort_by_mtime (thumbs w1) = (old ++ sort_by_mtime (thumbs w'))%list /\
    Forall (fun d => Forall (older d) (sort_by_mtime (thumbs w'))) old /\
    (Z.of_nat (List.length (thumbs w')) <= m)%Z /\
    ((m <= Z.of_nat (List.length (thumbs w1)))%Z ->
     Z.of_nat (List.length (thumbs w')) = m).
Proof.
  intros Hwf Hm Hpos H.
  destruct (download_all_snoc _ _ _ _ _ _ H) as (fs0 & w0 & f & A0 & D & ->).
  assert (Hwf0 : wf_dir w0) by (eapply download_all_wf; eauto).
  destruct (download_fanart_ok _ _ _ _ _ _ Hwf0 Hm D) as (w1 & L & Hwf1 & ->).
  exists fs0, w0, f, w1,
    (firstn (evict_count (List.length (thumbs w1)) m) (sort_by_mtime (thumbs w1))).
  simpl thumbs.
  rewrite (sort_after_evict _ m Hwf1), (length_after_evict _ m Hwf1).
  repeat split; auto.
  - symmetry. apply firstn_skipn.
  - apply sorted_app_older. rewrite firstn_skipn. apply sort_by_mtime_sorted.
  - apply evict_count_bound, Hpos.
  - intros Hge. rewrite evict_count_over by lia. lia.
Qed.

(** The bound at work: three images, [cache_size = 2], an empty directory;
    the two newest files are left. *)
Lemma C1_cache_bound_witness :
  exists fs0 w0 f w1 old,
    download_all (env_cache 2) ["https://tv.gab.com/a"; "https://tv.gab.com/b"] w_empty
      = (Ok fs0, w0) /\
    ["/addon/resources/thumbnails/gabtv_a.png"; "/addon/resources/thumbnails/gabtv_b.png";
     "/addon/resources/thumbnails/gabtv_c.png"] = (fs0 ++ [f])%list /\
    lookup_or_fetch (env_cache 2) "https://tv.gab.com/c" w0 = (Ok f, w1) /\
    sort_by_mtime (thumbs w1)
      = (old ++ sort_by_mtime
           [mkFile "gabtv_b.png" 1 "PNG"; mkFile "gabtv_c.png" 2 "PNG"])%list /\
    Forall (fun d => Forall (older d)
              (sort_by_mtime [mkFile "gabtv_b.png" 1 "PNG"; mkFile "gabtv_c.png" 2 "PNG"]))
           old /\
    (Z.of_nat 2 <= 2)%Z /\
    ((2 <= Z.of_nat (List.length (thumbs w1)))%Z -> Z.of_nat 2 = 2%Z).
Proof.
  apply (C1_cache_bound (env_cache 2)
           ["https://tv.gab.com/a"; "https://tv.gab.com/b"] "https://tv.gab.com/c"
           w_empty
           (mkWorld [mkFile "gabtv_b.png" 1 "PNG"; mkFile "gabtv_c.png" 2 "PNG"]
                    3 ["https://tv.gab.com/c"; "https://tv.gab.com/b"; "https://tv.gab.com/a"]
                    [] [])).
  - constructor.
  - reflexivity.
  - lia.
  - vm_compute. reflexivity.
Defined.

(** ** The eviction below and at the bound *)

(** C2: the claim is what the code sets out to do, and the code misses it.
    With three files and [cache_size = 5] the end of the slice is
    [3 - 5 = -2], which Python counts from the end of the list: the slice
    is [[0:1]] and the oldest file is deleted; so three calls on an empty
    directory leave two files. *)
Theorem C2_eviction_below_bound :
  (Z.of_nat (List.length three_files) <= 5)%Z
  /\ del_list three_files 5 = ["gabtv_a.png"]
  /\ evict (env_cache 5) w_three
     = (Ok tt, mkWorld [mkFile "gabtv_b.png" 2 "B"; mkFile "gabtv_c.png" 3 "C"] 4 [] [] [])
  /\ map fname (thumbs (snd (download_all (env_cache 5)
       ["https://tv.gab.com/img/a"; "https://tv.gab.com/img/b"; "https://tv.gab.com/img/c"]
       w_empty)))
     = ["gabtv_b.png"; "gabtv_c.png"].
Proof. vm_compute. repeat split; discriminate. Qed.

(** ** A setting of zero or less *)

(** C3, as stated, fails: with [cache_size = 0] (or [-2]) the end of the
    slice is [count - cache_size >= count], not negative, and the deletion
    list is the whole listing. *)
Lemma C3_counterexample :
  del_list three_files 0 = ["gabtv_a.png"; "gabtv_b.png"; "gabtv_c.png"]
  /\ del_list three_files 0 <> []
  /\ del_list three_files (-2) = ["gabtv_a.png"; "gabtv_b.png"; "gabtv_c.png"]
  /\ thumbs (snd (evict (env_cache 0) w_three)) = [].
Proof. vm_compute. repeat split; discriminate. Qed.

(** C3, amended: when [cache_size] is 0 or negative the deletion list is
    the whole listing of the directory, the eviction deletes every file,
    and a call that returns leaves the directory empty (the file it has
    just written included). *)
Theorem C3_nonpositive_cache_size (env : Env) (w : World) (m : Z) :
  wf_dir w -> cache_size env = Ok m -> (m <= 0)%Z ->
  del_list (thumbs w) m = sorted_ls (thumbs w)
  /\ evict env w = (Ok tt, set_thumbs [] w)
  /\ forall url f w', download_fanart env url w = (Ok f, w') -> thumbs w' = [].
Proof.
  intros Hwf Hm Hle.
  assert (Hall : forall fs, del_list fs m = sorted_ls fs).
  { intros fs. rewrite del_list_firstn, evict_count_nonpos by exact Hle.
    rewrite <- (sort_by_mtime_length fs), firstn_all. reflexivity. }
  assert (Hnil : forall fs, remove_all (del_list fs m) fs = []).
  { intros fs. apply remove_all_covered. rewrite Hall. unfold sorted_ls.
    intros x Hx. eapply Permutation_in; [|exact Hx].
    apply Permutation_map. symmetry. apply sort_by_mtime_perm. }
  split; [apply Hall|]. split.
  - rewrite (evict_ok _ _ _ Hwf Hm), Hnil. reflexivity.
  - intros url f w' D.
    destruct (download_fanart_ok _ _ _ _ _ _ Hwf Hm D) as (w1 & _ & _ & ->).
    simpl. apply Hnil.
Qed.

(** With [cache_size = 0] the three files all go. *)
Lemma C3_nonpositive_cache_size_witness :
  del_list (thumbs w_three) 0 = sorted_ls (thumbs w_three)
  /\ evict (env_cache 0) w_three = (Ok tt, set_thumbs [] w_three)
  /\ forall url f w', download_fanart (env_cache 0) url w_three = (Ok f, w') -> thumbs w' = [].
Proof.
  apply (C3_nonpositive_cache_size (env_cache 0) w_three 0).
  - unfold wf_dir. simpl.
    repeat constructor; simpl; intuition discriminate.
  - reflexivity.
  - lia.
Defined.

(** ** Cache hits *)

Lemma download_fanart_run (env : Env) (url : string) (w w1 : World) (f : string) (m : Z) :
  lookup_or_fetch env url w = (Ok f, w1) -> wf_dir w1 -> cache_size env = Ok m ->
  download_fanart env url w
  = (Ok f, set_thumbs (remove_all (del_list (thumbs w1) m) (thumbs w1)) w1).
Proof.
  intros L Hwf Hm. unfold download_fanart, bind. rewrite L.
  rewrite (evict_ok _ _ _ Hwf Hm). reflexivity.
Qed.




(** ** Two calls in a row *)

Lemma find_snoc {A} (p : A -> bool) (l : list A) (y : A) :
  (forall x, In x l -> p x = false) -> p y = true ->
  find p (l ++ [y])%list = Some y.
Proof.
  intros Hl Hy. induction l as [|a r IH]; simpl.
  - rewrite Hy. reflexivity.
  - rewrite (Hl a) by (left; reflexivity). apply IH.
    intros x Hx. apply Hl. right. exact Hx.
Qed.

Lemma url_key_no_slash (url : string) : has_char "/" (url_key url) = false.
Proof. apply py_last_split_no_sep. Qed.

(** C5, as stated, fails.  With [cache_size = 0] the first call deletes
    the file it has written, so the second call fetches again; and a
    content type whose last segment has a dot
    ([image/vnd.microsoft.icon]) gives a file name whose [splitext] root
    is not [gabtv_] + key, so the lookup of the second call misses it. *)
Lemma C5_counterexample :
  fetched (snd (download_all (env_cache 0)
                  ["https://tv.gab.com/img/a"; "https://tv.gab.com/img/a"] w_empty))
    = ["https://tv.gab.com/img/a"; "https://tv.gab.com/img/a"]
  /\ fetched (snd (download_all
                  (mkEnv "/addon" (Ok 5%Z)
                     (fun _ => Some (mkResponse (Some "image/vnd.microsoft.icon") "ICO"))
                     (fun _ => None))
                  ["https://tv.gab.com/img/a"; "https://tv.gab.com/img/a"] w_empty))
    = ["https://tv.gab.com/img/a"; "https://tv.gab.com/img/a"].
Proof. vm_compute. split; reflexivity. Qed.

(** C5, amended: for a URL that is not cached yet, whose fetch succeeds
    with an extension without a dot, and with [cache_size >= 1] in a
    directory whose files are older than the clock, two calls in a row
    both return the same path, the first fetches the URL once and writes
    the file, the second finds that file and fetches nothing. *)
Theorem C5_idempotence (env : Env) (url : string) (w : World) (m : Z) (r : Response) :
  wf_dir w -> past_mtimes w -> cache_size env = Ok m -> (1 <= m)%Z ->
  find (is_cached (url_key url)) (map fname (thumbs w)) = None ->
  http_get env url = Some r -> has_char "." (extension_of r) = false ->
  exists w1 w2,
    download_fanart env url w
      = (Ok (thumb_path env (cache_name (url_key url) (extension_of r))), w1) /\
    download_fanart env url w1
      = (Ok (thumb_path env (cache_name (url_key url) (extension_of r))), w2) /\
    fetched w1 = url :: fetched w /\
    find (is_cached (url_key url)) (map fname (thumbs w1))
      = Some (cache_name (url_key url) (extension_of r)) /\
    fetched w2 = fetched w1.
Proof.
  intros Hwf Hpast Hm Hpos F G Hdot.
  set (key := url_key url) in *. set (name := cache_name key (extension_of r)).
  set (f := mkFile name (clock w) (content r)).
  assert (Hc : is_cached key name = true).
  { apply is_cached_cache_name;
      [apply url_key_no_slash | apply extension_no_slash | exact Hdot]. }
  assert (Hold : forall x, In x (map fname (thumbs w)) -> is_cached key x = false).
  { intros x Hx. eapply find_none; eauto. }
  assert (Hnew : ~ In name (map fname (thumbs w))).
  { intros Hin. apply Hold in Hin. congruence. }
  pose proof (lookup_miss env url w r F G) as L. fold key name f in L.
  rewrite (put_file_fresh f (thumbs w) Hnew) in L.
  set (w0 := mkWorld (thumbs w ++ [f])%list (S (clock w)) (url :: fetched w)
                     (cookies w) (session_headers w)) in L.
  assert (Hwf0 : wf_dir w0).
  { unfold wf_dir, w0. simpl. rewrite map_app. apply NoDup_app; [exact Hwf | |].
    - repeat constructor. intros [].
    - intros x Hx [<-|[]]. contradiction. }
  pose proof (download_fanart_run _ _ _ _ _ _ L Hwf0 Hm) as D1.
  set (dl := del_list (thumbs w0) m) in D1.
  assert (Hdl : incl dl (map fname (thumbs w))).
  { unfold dl. rewrite del_list_firstn. unfold w0. simpl thumbs.
    rewrite sort_by_mtime_snoc.
    - rewrite firstn_app, sort_by_mtime_length.
      replace (_ - _) with 0.
      + simpl. rewrite app_nil_r. intros x Hx.
        apply in_map_iff in Hx as (g & <- & Hg). apply firstn_incl in Hg.
        apply in_map. eapply Permutation_in; [apply sort_by_mtime_perm | exact Hg].
      + pose proof (evict_count_keeps_one (List.length (thumbs w ++ [f])%list) m Hpos) as K.
        rewrite length_app in *. simpl in *. lia.
    - eapply Forall_impl; [|exact Hpast]. simpl. intros; lia. }
  assert (Hkeep : remove_all dl (thumbs w0) = (remove_all dl (thumbs w) ++ [f])%list).
  { unfold w0, remove_all. simpl thumbs. rewrite filter_app. cbn [filter].
    change (fname f) with name.
    destruct (existsb (String.eqb name) dl) eqn:E; [|reflexivity].
    apply existsb_exists in E as (y & Hy & Ey). apply String.eqb_eq in Ey. subst y.
    exfalso. apply Hnew, Hdl, Hy. }
  assert (F1 : find (is_cached key) (map fname (remove_all dl (thumbs w0))) = Some name).
  { rewrite Hkeep, map_app. apply find_snoc; [|exact Hc].
    intros x Hx. apply Hold. apply in_map_iff in Hx as (g & <- & Hg).
    apply in_map. eapply remove_all_incl, Hg. }
  eexists. eexists. split; [exact D1|]. split.
  - apply (download_fanart_run _ _ _ _ _ m
             (lookup_hit env url (set_thumbs (remove_all dl (thumbs w0)) w0) _ F1));
      [|exact Hm].
    unfold wf_dir. simpl. apply remove_all_nodup, Hwf0.
  - simpl. auto.
Qed.

(** A fourth image in the directory of three files, with [cache_size = 2]. *)
Lemma C5_idempotence_witness :
  exists w1 w2,
    download_fanart (env_cache 2) "https://tv.gab.com/img/d" w_three
      = (Ok (thumb_path (env_cache 2)
               (cache_name (url_key "https://tv.gab.com/img/d") (extension_of png))), w1) /\
    download_fanart (env_cache 2) "https://tv.gab.com/img/d" w1
      = (Ok (thumb_path (env_cache 2)
               (cache_name (url_key "https://tv.gab.com/img/d") (extension_of png))), w2) /\
    fetched w1 = "https://tv.gab.com/img/d" :: fetched w_three /\
    find (is_cached (url_key "https://tv.gab.com/img/d")) (map fname (thumbs w1))
      = Some (cache_name (url_key "https://tv.gab.com/img/d") (extension_of png)) /\
    fetched w2 = fetched w1.
Proof.
  apply (C5_idempotence (env_cache 2) "https://tv.gab.com/img/d" w_three 2 png).
  - unfold wf_dir. simpl. repeat constructor; simpl; intuition discriminate.
  - unfold past_mtimes. simpl. repeat constructor.
  - reflexivity.
  - lia.
  - reflexivity.
  - reflexivity.
  - reflexivity.
Defined.

(** ** The stream URL *)

Lemma string_app_assoc (a b c : string) : (a ++ b) ++ c = a ++ b ++ c.
Proof. induction a as [|x r IH]; simpl; [reflexivity | rewrite IH; reflexivity]. Qed.

(** [kodi_header] reads the session and changes nothing. *)
Lemma kodi_header_world (w w' : World) (out : result string) :
  kodi_header w = (out, w') -> w' = w.
Proof.
  unfold kodi_header, bind, gets.
  destruct (cookie_loop (cookies w) (dict_keys (cookies w)) EmptyString);
    intros H; inversion H; reflexivity.
Qed.

(** C6: with the media URL [https://cdn/video], the view key [abc123], the
    one cookie [a=1] in the jar after the request and no header on the
    session, [retrieve_video_url] returns
    [https://cdn/video?viewKey=abc123&r=1080p|Cookie=a%3D1&]. *)
Theorem C6_stream_url (env : Env) (channel view : string) (w : World) (page : Page) :
  site env (detail_url channel view) = Some page ->
  og_video page = Some (Some "https://cdn/video") ->
  data_view_key page = Some (Some "abc123") ->
  update_jar (cookies w) (set_cookies page) = [("a", "1")] ->
  session_headers w = [] ->
  fst (retrieve_video_url env channel view w)
  = Ok "https://cdn/video?viewKey=abc123&r=1080p|Cookie=a%3D1&".
Proof.
  intros Hs Hm Hk Hj Hh.
  unfold retrieve_video_url, bind, session_get. fold (detail_url channel view).
  rewrite Hs, Hm, Hk. simpl. unfold kodi_header, bind, gets. simpl.
  rewrite Hj, Hh. reflexivity.
Qed.

(** The page and the session of the statement. *)
Lemma C6_stream_url_witness :
  fst (retrieve_video_url (env_site cdn_page) "CHAN42" "V99" w_cookie)
  = Ok "https://cdn/video?viewKey=abc123&r=1080p|Cookie=a%3D1&".
Proof.
  apply (C6_stream_url (env_site cdn_page) "CHAN42" "V99" w_cookie cdn_page);
    reflexivity.
Defined.

(** C10: whenever [retrieve_video_url] returns a URL, the page had a media
    URL and a view key, and the URL is the media URL, [?viewKey=], the view
    key, [&r=1080p] and the cookie header: the resolution is the constant
    [1080p], whatever the channel, the view, the page and the settings. *)
Theorem C10_resolution_constant (env : Env) (channel view : string)
    (w w' : World) (url : string) :
  retrieve_video_url env channel view w = (Ok url, w') ->
  exists page media view_key h,
    site env (detail_url channel view) = Some page /\
    og_video page = Some (Some media) /\
    data_view_key page = Some (Some view_key) /\
    kodi_header w' = (Ok h, w') /\
    url = media ++ "?viewKey=" ++ view_key ++ "&r=1080p" ++ h /\
    exists pre post, url = pre ++ "&r=1080p" ++ post.
Proof.
  unfold retrieve_video_url, bind, session_get. fold (detail_url channel view).
  destruct (site env (detail_url channel view)) as [page|] eqn:Hs; [|discriminate].
  destruct (og_video page) as [[media|]|] eqn:Hm; simpl;
    destruct (data_view_key page) as [[view_key|]|] eqn:Hk; simpl;
    try discriminate.
  match goal with
  | |- context [kodi_header ?w1] =>
      destruct (kodi_header w1) as [[h|e] w2] eqn:K; [|discriminate];
      pose proof (kodi_header_world _ _ _ K) as Hw; subst w2
  end.
  unfold ret. intros H. inversion H; subst.
  exists page, media, view_key, h. repeat split; eauto.
  exists (media ++ "?viewKey=" ++ view_key), h.
  rewrite !string_app_assoc. reflexivity.
Qed.

(** A run that returns, and its URL. *)
Lemma C10_resolution_constant_witness :
  exists page media view_key h,
    site (env_site cdn_page) (detail_url "CHAN42" "V99") = Some page /\
    og_video page = Some (Some media) /\
    data_view_key page = Some (Some view_key) /\
    kodi_header w_cookie = (Ok h, w_cookie) /\
    "https://cdn/video?viewKey=abc123&r=1080p|Cookie=a%3D1&"
      = media ++ "?viewKey=" ++ view_key ++ "&r=1080p" ++ h /\
    exists pre post,
      "https://cdn/video?viewKey=abc123&r=1080p|Cookie=a%3D1&"
        = pre ++ "&r=1080p" ++ post.
Proof.
  apply (C10_resolution_constant (env_site cdn_page) "CHAN42" "V99" w_cookie w_cookie).
  reflexivity.
Defined.

(** ** The mapper *)


Lemma index_in_range (l : list string) (i : nat) :
  i < List.length l -> py_index l i = Some (nth i l EmptyString).
Proof. intros H. unfold py_index. apply nth_error_nth'. exact H. Qed.

Lemma map_video_good (env : Env) (t v a : string) (w : World) :
  5 <= List.length (py_split "/" v) ->
  map_video env t v a w
  = match download_fanart env a w with
    | (Ok art, w1) =>
        (Ok (mkTitleItem t (play_video (segment v 2) (segment v 4)) art art art
               ("Title: " ++ t ++ newline ++ "Channel: " ++ segment v 2) true), w1)
    | (Raise e, w1) => (Raise e, w1)
    end.
Proof.
  intros H. unfold map_video, bind, index_or_raise.
  rewrite !index_in_range by lia. unfold ret at 1 2.
  fold (segment v 2) (segment v 4).
  destruct (download_fanart env a w) as [[art|e] w1]; reflexivity.
Qed.

Lemma map_video_short (env : Env) (t v a : string) (w : World) :
  List.length (py_split "/" v) < 5 ->
  map_video env t v a w = (Raise IndexError, w).
Proof.
  intros H. unfold map_video, bind, index_or_raise, py_index.
  destruct (nth_error (py_split "/" v) 2) as [c|] eqn:E2; [|reflexivity].
  unfold ret at 1.
  assert (E4 : nth_error (py_split "/" v) 4 = None) by (apply nth_error_None; lia).
  rewrite E4. reflexivity.
Qed.




(** C8, as stated, fails: the claim is about every navigation reference,
    and a reference with fewer than five segments has no segment at index
    4: [/watch/CHAN42] splits into three segments, [video_url.split('/')[4]]
    raises [IndexError] and the mapper extracts nothing. *)
Lemma C8_counterexample :
  py_split "/" "/watch/CHAN42" = [EmptyString; "watch"; "CHAN42"]
  /\ py_index (py_split "/" "/watch/CHAN42") 4 = None
  /\ map_video (env_cache 5) "t" "/watch/CHAN42" "https://tv.gab.com/img/a" w_empty
     = (Raise IndexError, w_empty).
Proof. vm_compute. auto. Qed.

(** C8, amended: for every navigation reference, split at the slashes:
    when it has at least five segments, the mapper takes the segment at
    index 2 as the channel and the segment at index 4 as the view, and
    what it does next is the download of the art, whose failure is the
    only one left; if that returns, the item has the route
    [play_video channel view] and names the channel in its plot.  When
    the reference has fewer than five segments the mapper raises
    [IndexError] before it downloads anything.  The reference
    [/watch/CHAN42/view/V99/extra] has five segments, and its channel and
    view are [CHAN42] and [V99]. *)
Theorem C8_channel_view (env : Env) (title video_url art_url : string) (w : World) :
  (5 <= List.length (py_split "/" video_url) ->
   py_index (py_split "/" video_url) 2 = Some (segment video_url 2)
   /\ py_index (py_split "/" video_url) 4 = Some (segment video_url 4)
   /\ map_video env title video_url art_url w
      = match download_fanart env art_url w with
        | (Ok art, w1) =>
            (Ok (mkTitleItem title
                   (play_video (segment video_url 2) (segment video_url 4))
                   art art art
                   ("Title: " ++ title ++ newline ++ "Channel: " ++ segment video_url 2)
                   true), w1)
        | (Raise e, w1) => (Raise e, w1)
        end)
  /\ (List.length (py_split "/" video_url) < 5 ->
      map_video env title video_url art_url w = (Raise IndexError, w))
  /\ (video_url = "/watch/CHAN42/view/V99/extra" ->
      5 <= List.length (py_split "/" video_url)
      /\ segment video_url 2 = "CHAN42" /\ segment video_url 4 = "V99").
Proof.
  split; [|split].
  - intros H. split; [apply index_in_range; lia|].
    split; [apply index_in_range; lia|]. apply map_video_good, H.
  - apply map_video_short.
  - intros ->. vm_compute. repeat split; lia.
Qed.

(** The reference of the example, with an image that can be fetched. *)
Lemma C8_channel_view_witness :
  5 <= List.length (py_split "/" "/watch/CHAN42/view/V99/extra")
  /\ exists item w',
       map_video (env_cache 5) "t" "/watch/CHAN42/view/V99/extra"
         "https://tv.gab.com/img/a" w_empty = (Ok item, w')
       /\ path item = play_video "CHAN42" "V99".
Proof.
  destruct (proj2 (proj2 (C8_channel_view (env_cache 5) "t"
                            "/watch/CHAN42/view/V99/extra"
                            "https://tv.gab.com/img/a" w_empty)) eq_refl)
    as (H5 & _ & _).
  split; [exact H5|].
  destruct (proj1 (C8_channel_view (env_cache 5) "t" "/watch/CHAN42/view/V99/extra"
                     "https://tv.gab.com/img/a" w_empty) H5) as (_ & _ & E).
  rewrite E. vm_compute. eexists. eexists. split; reflexivity.
Defined.

(** ** The extension of a written file *)

Lemma py_split_no_sep (c : ascii) (s : string) :
  has_char c s = false -> py_split c s = [s].
Proof.
  induction s as [|a r IH]; simpl; [reflexivity|].
  intros H. apply orb_false_iff in H as [Ha Hr].
  rewrite Ha, (IH Hr). reflexivity.
Qed.

Lemma put_file_in (f : File) (fs : list File) : In f (put_file f fs).
Proof.
  induction fs as [|g r IH]; simpl; [left; reflexivity|].
  destruct (fname g =? fname f); [left; reflexivity | right; exact IH].
Qed.

(** C9, as stated, fails on a malformed header: a content type without a
    slash does not raise, so the [except] branch is not taken and the
    extension is the header itself, not the default. *)
Lemma C9_counterexample :
  is_media_type "garbage" = false
  /\ extension_of (mkResponse (Some "garbage") "X") = "garbage"
  /\ extension_of (mkResponse (Some "garbage") "X") <> "apng"
  /\ map fname (thumbs (snd (lookup_or_fetch
        (mkEnv "/addon" (Ok 5%Z) (fun _ => Some (mkResponse (Some "garbage") "X"))
               (fun _ => None))
        "https://tv.gab.com/img/a" w_empty)))
     = ["gabtv_a.garbage"].
Proof. vm_compute. repeat split; discriminate. Qed.

(** C9, amended: the choice of the extension never raises.  On a miss
    whose fetch succeeds, the extension is the last slash-delimited
    segment of the content type when the response has that header (the
    whole header when it has no slash, however malformed), and [apng] only
    when the header is absent; the file [gabtv_] + key + [.] + extension
    is written with the body of the response.  The operation then returns
    the path of that file when the [cache_size] setting is an integer;
    when it is not, the operation raises the exception of [int] after the
    write, and the file stays in the directory. *)
Theorem C9_extension_total (env : Env) (url : string) (w : World) (r : Response) :
  find (is_cached (url_key url)) (map fname (thumbs w)) = None ->
  http_get env url = Some r ->
  extension_of r = match content_type r with
                   | Some v => py_last (py_split "/" v)
                   | None => "apng"
                   end
  /\ (forall v, content_type r = Some v -> is_media_type v = false ->
                extension_of r = v)
  /\ (exists w1,
       lookup_or_fetch env url w
         = (Ok (thumb_path env ("gabtv_" ++ url_key url ++ "." ++ extension_of r)), w1)
       /\ In (mkFile ("gabtv_" ++ url_key url ++ "." ++ extension_of r)
                     (clock w) (content r)) (thumbs w1)
       /\ fetched w1 = url :: fetched w)
  /\ (forall m, wf_dir w -> cache_size env = Ok m ->
      exists w2,
        download_fanart env url w
        = (Ok (thumb_path env ("gabtv_" ++ url_key url ++ "." ++ extension_of r)), w2))
  /\ (forall e, cache_size env = Raise e ->
      exists w1,
        download_fanart env url w = (Raise e, w1)
        /\ In (mkFile ("gabtv_" ++ url_key url ++ "." ++ extension_of r)
                      (clock w) (content r)) (thumbs w1)).
Proof.
  intros F G. pose proof (lookup_miss _ _ _ _ F G) as L.
  split; [|split; [|split; [|split]]].
  - unfold extension_of, header_content_type. destruct (content_type r); reflexivity.
  - intros v Hv Hmal. unfold extension_of, header_content_type. rewrite Hv. simpl.
    rewrite py_split_no_sep by exact Hmal. reflexivity.
  - eexists. split; [exact L|].
    simpl. split; [apply put_file_in | reflexivity].
  - intros m Hwf Hm. eexists.
    apply (download_fanart_run _ _ _ _ _ _ L (lookup_wf _ _ _ _ _ Hwf L) Hm).
  - intros e He. eexists. unfold download_fanart, bind. rewrite L.
    unfold evict, bind. rewrite He. split; [reflexivity|]. apply put_file_in.
Qed.

(** A response without a content type: with the setting 5 the path of
    [gabtv_a.apng] is returned. *)
Lemma C9_extension_total_witness :
  extension_of (mkResponse None "X") = "apng"
  /\ (exists w1,
       lookup_or_fetch (mkEnv "/addon" (Ok 5%Z) (fun _ => Some (mkResponse None "X"))
                              (fun _ => None)) "https://tv.gab.com/img/a" w_empty
         = (Ok "/addon/resources/thumbnails/gabtv_a.apng", w1)
       /\ In (mkFile "gabtv_a.apng" 0 "X") (thumbs w1))
  /\ exists w2,
       download_fanart (mkEnv "/addon" (Ok 5%Z) (fun _ => Some (mkResponse None "X"))
                              (fun _ => None)) "https://tv.gab.com/img/a" w_empty
         = (Ok "/addon/resources/thumbnails/gabtv_a.apng", w2).
Proof.
  destruct (C9_extension_total
              (mkEnv "/addon" (Ok 5%Z) (fun _ => Some (mkResponse None "X"))
                     (fun _ => None))
              "https://tv.gab.com/img/a" w_empty (mkResponse None "X")
              eq_refl eq_refl) as (He & _ & (w1 & L & Hin & _) & D & _).
  split; [exact He|]. split; [exists w1; split; [exact L | exact Hin]|].
  destruct (D 5%Z) as (w2 & D2); [constructor | reflexivity |].
  exists w2. exact D2.
Defined.

(** * More of the thumbnail cache *)

(** ** The listing by modification time *)

Lemma insert_by_mtime_head (f : File) (l : list File) :
  Forall (older f) l -> insert_by_mtime f l = f :: l.
Proof.
  intros H. destruct l as [|g r]; simpl; [reflexivity|].
  inversion H as [|? ? Hg _]; subst. unfold older in Hg.
  apply Nat.leb_le in Hg. rewrite Hg. reflexivity.
Qed.

Lemma sort_by_mtime_sorted_id (l : list File) :
  StronglySorted older l -> sort_by_mtime l = l.
Proof.
  induction 1 as [|f r Hs IH Hall]; simpl; [reflexivity|].
  rewrite IH. apply insert_by_mtime_head, Hall.
Qed.

Lemma same_mtime_sorted (t : nat) (l : list File) :
  StronglySorted older (filter (fun f => mtime f =? t)%nat l).
Proof.
  induction l as [|f r IH]; simpl; [constructor|].
  destruct (mtime f =? t)%nat eqn:E; [|exact IH].
  constructor; [exact IH|]. apply Forall_forall. intros g Hg.
  apply filter_In in Hg as [_ Hg]. apply Nat.eqb_eq in E, Hg. unfold older. lia.
Qed.

(** X1: [sorted_ls] lists every file name of the directory once, the files
    ordered from the oldest to the newest, and files with the same
    modification time in the order [os.listdir] gave them. *)
Theorem X1_sorted_ls_oldest_first (fs : list File) :
  Permutation (sort_by_mtime fs) fs
  /\ sorted_ls fs = map fname (sort_by_mtime fs)
  /\ Permutation (sorted_ls fs) (map fname fs)
  /\ StronglySorted older (sort_by_mtime fs)
  /\ forall t, filter (fun f => mtime f =? t)%nat (sort_by_mtime fs)
               = filter (fun f => mtime f =? t)%nat fs.
Proof.
  split; [apply sort_by_mtime_perm|]. split; [reflexivity|].
  split; [apply Permutation_map, sort_by_mtime_perm|].
  split; [apply sort_by_mtime_sorted|].
  intros t. rewrite <- sort_by_mtime_filter.
  apply sort_by_mtime_sorted_id, same_mtime_sorted.
Qed.

(** ** A hit after a call *)

Lemma evict_count_idem (n : nat) (m : Z) :
  evict_count (n - evict_count n m) m = 0.
Proof.
  assert (H : evict_count n m
              = Z.to_nat (if (Z.of_nat n - m <? 0)%Z
                          then Z.max 0 (2 * Z.of_nat n - m)
                          else Z.min (Z.of_nat n - m) (Z.of_nat n))).
  { unfold evict_count, slice_end. destruct (_ <? 0)%Z; f_equal; lia. }
  rewrite H. clear H.
  destruct (Z.of_nat n - m <? 0)%Z eqn:E1;
    [apply Z.ltb_lt in E1 | apply Z.ltb_ge in E1];
    unfold evict_count, slice_end;
    (destruct (_ <? 0)%Z eqn:E2;
     [apply Z.ltb_lt in E2 | apply Z.ltb_ge in E2]); lia.
Qed.

Lemma set_thumbs_same (w : World) : set_thumbs (thumbs w) w = w.
Proof. destruct w; reflexivity. Qed.

Lemma del_list_none (fs : list File) (m : Z) :
  evict_count (List.length fs) m = 0 -> del_list fs m = [].
Proof. intros H. rewrite del_list_firstn, H. reflexivity. Qed.

(** X2: once a call has returned, a call that hits (with the same setting)
    changes nothing at all: it fetches nothing, writes nothing and its
    eviction finds nothing to delete; it returns the path of the file
    found. *)
Theorem X2_hit_after_call_changes_nothing (env : Env) (u u' : string)
    (w w1 : World) (f s : string) (m : Z) :
  wf_dir w -> cache_size env = Ok m ->
  download_fanart env u w = (Ok f, w1) ->
  find (is_cached (url_key u')) (map fname (thumbs w1)) = Some s ->
  download_fanart env u' w1 = (Ok (thumb_path env s), w1).
Proof.
  intros Hwf Hm D F.
  assert (Hwf1 : wf_dir w1) by (eapply download_fanart_wf; eauto).
  rewrite (download_fanart_run _ _ _ _ _ _ (lookup_hit env _ _ _ F) Hwf1 Hm).
  destruct (download_fanart_ok _ _ _ _ _ _ Hwf Hm D) as (w0 & _ & Hwf0 & E).
  assert (Hlen : List.length (thumbs w1)
                 = List.length (thumbs w0) - evict_count (List.length (thumbs w0)) m).
  { rewrite E. simpl. apply length_after_evict, Hwf0. }
  rewrite del_list_none by (rewrite Hlen; apply evict_count_idem).
  rewrite remove_all_nil, set_thumbs_same. reflexivity.
Qed.

(** After the three downloads of an empty directory with [cache_size = 5],
    asking again for the last image. *)
Lemma X2_hit_after_call_changes_nothing_witness :
  download_fanart (env_cache 5) "https://tv.gab.com/img/c"
    (mkWorld [mkFile "gabtv_b.png" 1 "PNG"; mkFile "gabtv_c.png" 2 "PNG"] 3
       ["https://tv.gab.com/img/c"] [] [])
  = (Ok (thumb_path (env_cache 5) "gabtv_c.png"),
     mkWorld [mkFile "gabtv_b.png" 1 "PNG"; mkFile "gabtv_c.png" 2 "PNG"] 3
       ["https://tv.gab.com/img/c"] [] []).
Proof.
  apply (X2_hit_after_call_changes_nothing (env_cache 5)
           "https://tv.gab.com/img/c" "https://tv.gab.com/img/c"
           (mkWorld [mkFile "gabtv_a.png" 0 "PNG"; mkFile "gabtv_b.png" 1 "PNG"] 2 [] [] [])
           _ "/addon/resources/thumbnails/gabtv_c.png" "gabtv_c.png" 5).
  - unfold wf_dir. simpl. repeat constructor; simpl; intuition discriminate.
  - reflexivity.
  - vm_compute. reflexivity.
  - reflexivity.
Defined.

(** ** Half of the configured size *)

Lemma put_file_length (f : File) (fs : list File) :
  List.length (put_file f fs) <= S (List.length fs).
Proof.
  induction fs as [|g r IH]; simpl; [lia|].
  destruct (fname g =? fname f); simpl; lia.
Qed.

Lemma lookup_length (env : Env) (url : string) (w w1 : World) (r : result string) :
  lookup_or_fetch env url w = (r, w1) ->
  List.length (thumbs w1) <= S (List.length (thumbs w)).
Proof.
  intros H.
  destruct (find (is_cached (url_key url)) (map fname (thumbs w))) as [s|] eqn:F.
  - rewrite (lookup_hit _ _ _ _ F) in H. inversion H; subst. lia.
  - destruct (http_get env url) as [resp|] eqn:G.
    + rewrite (lookup_miss _ _ _ _ F G) in H. inversion H; subst.
      simpl. apply put_file_length.
    + rewrite (lookup_miss_fails _ _ _ F G) in H. inversion H; subst. simpl. lia.
Qed.

Lemma half_capacity_step (env : Env) (url : string) (w w' : World) (f : string) (m : Z) :
  wf_dir w -> cache_size env = Ok m -> (3 <= m)%Z ->
  (2 * Z.of_nat (List.length (thumbs w)) <= m)%Z ->
  download_fanart env url w = (Ok f, w') ->
  (2 * Z.of_nat (List.length (thumbs w')) <= m)%Z.
Proof.
  intros Hwf Hm H3 Hhalf D.
  destruct (download_fanart_ok _ _ _ _ _ _ Hwf Hm D) as (w1 & L & Hwf1 & ->).
  cbn [thumbs set_thumbs]. rewrite (length_after_evict _ m Hwf1).
  pose proof (lookup_length _ _ _ _ _ L) as Hl.
  unfold evict_count, slice_end.
  destruct (Z.of_nat (List.length (thumbs w1)) - m <? 0)%Z eqn:E;
    [apply Z.ltb_lt in E | apply Z.ltb_ge in E]; lia.
Qed.

(** X3: with [cache_size >= 3], a directory that holds at most half as many
    files as the setting allows never gets beyond that half: after every
    run of calls that returns, twice the number of files is still at most
    [cache_size].  The eviction starts deleting as soon as the directory
    is more than half full. *)
Theorem X3_cache_stays_half_empty (env : Env) (urls : list string)
    (w w' : World) (fs : list string) (m : Z) :
  wf_dir w -> cache_size env = Ok m -> (3 <= m)%Z ->
  (2 * Z.of_nat (List.length (thumbs w)) <= m)%Z ->
  download_all env urls w = (Ok fs, w') ->
  (2 * Z.of_nat (List.length (thumbs w')) <= m)%Z.
Proof.
  intros Hwf Hm H3. revert w fs Hwf.
  induction urls as [|u r IH]; intros w fs Hwf Hhalf H; simpl in H.
  - inversion H; subst. exact Hhalf.
  - unfold bind in H.
    destruct (download_fanart env u w) as [[f|e] w1] eqn:D; [|discriminate].
    destruct (download_all env r w1) as [[fr|e] w2] eqn:A; [|discriminate].
    inversion H; subst. eapply IH; [| |exact A].
    + eapply download_fanart_wf; eauto.
    + eapply half_capacity_step; eauto.
Qed.

(** Ten images with [cache_size = 10]: five files at most are kept. *)
Lemma X3_cache_stays_half_empty_witness :
  (2 * Z.of_nat (List.length (thumbs (snd (download_all (env_cache 10) ten_urls w_empty))))
   <= 10)%Z.
Proof.
  destruct (download_all (env_cache 10) ten_urls w_empty) as [[fs|e] w'] eqn:R.
  - cbn [snd].
    apply (X3_cache_stays_half_empty (env_cache 10) ten_urls w_empty w' fs 10);
      [constructor | reflexivity | lia | simpl; lia | exact R].
  - vm_compute in R. discriminate.
Defined.

(** ** What a call leaves of the directory *)

Lemma os_remove_frame (name : string) (w w' : World) (r : result unit) :
  os_remove name w = (r, w') ->
  incl (thumbs w') (thumbs w) /\ clock w' = clock w /\ fetched w' = fetched w
  /\ cookies w' = cookies w /\ session_headers w' = session_headers w.
Proof.
  unfold os_remove. destruct (existsb _ _); intros H; inversion H; subst; simpl.
  - repeat split; auto. intros f Hf. apply filter_In in Hf. apply Hf.
  - repeat split; auto. apply incl_refl.
Qed.

Lemma for_each_remove_frame (dl : list string) :
  forall (w w' : World) (r : result unit),
  for_each dl os_remove w = (r, w') ->
  incl (thumbs w') (thumbs w) /\ clock w' = clock w /\ fetched w' = fetched w
  /\ cookies w' = cookies w /\ session_headers w' = session_headers w.
Proof.
  induction dl as [|x l IH]; intros w w' r H; simpl in H.
  - inversion H; subst. repeat split; auto. apply incl_refl.
  - unfold bind in H. destruct (os_remove x w) as [[[]|e] w1] eqn:R.
    + apply os_remove_frame in R as (I1 & C1 & F1 & K1 & S1).
      apply IH in H as (I2 & C2 & F2 & K2 & S2).
      repeat split; try congruence. eapply incl_tran; eauto.
    + inversion H; subst. eapply os_remove_frame; eauto.
Qed.

Lemma evict_frame (env : Env) (w w' : World) (r : result unit) :
  evict env w = (r, w') ->
  incl (thumbs w') (thumbs w) /\ clock w' = clock w /\ fetched w' = fetched w
  /\ cookies w' = cookies w /\ session_headers w' = session_headers w.
Proof.
  unfold evict, bind, gets. destruct (cache_size env) as [m|e]; simpl.
  - apply for_each_remove_frame.
  - intros H. inversion H; subst. repeat split; auto. apply incl_refl.
Qed.

Lemma put_file_incl (f g : File) (fs : list File) :
  In g (put_file f fs) -> g = f \/ In g fs.
Proof.
  induction fs as [|h r IH]; simpl.
  - intros [<-|[]]. left. reflexivity.
  - destruct (fname h =? fname f); simpl.
    + intros [<-|H]; auto.
    + intros [<-|H]; auto. destruct (IH H); auto.
Qed.

(** The three ways the first half of a call can go. *)
Lemma lookup_cases (env : Env) (url : string) (w w1 : World) (out : result string) :
  lookup_or_fetch env url w = (out, w1) ->
  (exists s, find (is_cached (url_key url)) (map fname (thumbs w)) = Some s /\
             out = Ok (thumb_path env s) /\ w1 = w)
  \/ (exists r, find (is_cached (url_key url)) (map fname (thumbs w)) = None /\
                http_get env url = Some r /\
                out = Ok (thumb_path env (cache_name (url_key url) (extension_of r))) /\
                w1 = mkWorld (put_file (mkFile (cache_name (url_key url) (extension_of r))
                                               (clock w) (content r)) (thumbs w))
                             (S (clock w)) (url :: fetched w) (cookies w)
                             (session_headers w))
  \/ (find (is_cached (url_key url)) (map fname (thumbs w)) = None /\
      http_get env url = None /\ out = Raise RequestException /\
      w1 = mkWorld (thumbs w) (clock w) (url :: fetched w) (cookies w)
                   (session_headers w)).
Proof.
  intros H.
  destruct (find (is_cached (url_key url)) (map fname (thumbs w))) as [s|] eqn:F.
  - rewrite (lookup_hit _ _ _ _ F) in H. inversion H; subst. left. eauto.
  - destruct (http_get env url) as [resp|] eqn:G.
    + rewrite (lookup_miss _ _ _ _ F G) in H. inversion H; subst.
      right. left. exists resp. auto.
    + rewrite (lookup_miss_fails _ _ _ F G) in H. inversion H; subst.
      right. right. auto.
Qed.

(** A call is its lookup followed, when that returns, by the eviction. *)
Lemma download_fanart_split (env : Env) (url : string) (w w' : World)
    (out : result string) :
  download_fanart env url w = (out, w') ->
  exists out1 w1, lookup_or_fetch env url w = (out1, w1) /\
    ((exists e, out1 = Raise e /\ out = Raise e /\ w' = w1)
     \/ (exists f ev, out1 = Ok f /\ evict env w1 = (ev, w') /\
                      out = match ev with Ok _ => Ok f | Raise e => Raise e end)).
Proof.
  unfold download_fanart, bind. intros H.
  destruct (lookup_or_fetch env url w) as [[f|e] w1] eqn:L.
  - exists (Ok f), w1. split; [reflexivity|]. right.
    destruct (evict env w1) as [[[]|e] w2] eqn:E; inversion H; subst;
      eexists; eexists; eauto.
  - inversion H; subst. exists (Raise e), w'. split; [reflexivity|]. left. eauto.
Qed.

Lemma in_nodup_names (l : list File) (x y : File) :
  NoDup (map fname l) -> In x l -> In y l -> fname x = fname y -> x = y.
Proof.
  induction l as [|a r IH]; simpl; intros Hnd Hx Hy E; [contradiction|].
  inversion Hnd as [|? ? Ha Hr]; subst.
  destruct Hx as [<-|Hx], Hy as [<-|Hy]; auto.
  - exfalso. apply Ha. rewrite E. apply in_map, Hy.
  - exfalso. apply Ha. rewrite <- E. apply in_map, Hx.
Qed.

Lemma nodup_app_disjoint {A} (a b : list A) (x : A) :
  NoDup (a ++ b) -> In x a -> In x b -> False.
Proof.
  induction a as [|h t IH]; simpl; intros Hnd Ha Hb; [contradiction|].
  inversion Hnd as [|? ? Hh Ht]; subst. destruct Ha as [->|Ha].
  - apply Hh, in_or_app. right. exact Hb.
  - apply IH; assumption.
Qed.

Lemma skipn_incl {A} (k : nat) (l : list A) : incl (skipn k l) l.
Proof.
  intros x Hx. rewrite <- (firstn_skipn k l). apply in_or_app. right. exact Hx.
Qed.

(** In a listing by age, a file strictly newer than all the others is
    beyond every proper prefix. *)
Lemma newest_beyond_prefix (l : list File) (f : File) (k : nat) :
  StronglySorted older l -> NoDup (map fname l) -> In f l ->
  (forall g, In g l -> g <> f -> mtime g < mtime f) ->
  k < List.length l -> In f (skipn k l).
Proof.
  intros Hs Hnd Hf Hnew Hk.
  rewrite <- (firstn_skipn k l) in Hs, Hnd, Hf.
  apply in_app_or in Hf as [Hf|Hf]; [|exact Hf]. exfalso.
  destruct (skipn k l) as [|x t] eqn:S.
  - apply (f_equal (@List.length File)) in S. rewrite length_skipn in S.
    simpl in S. lia.
  - assert (Hx : In x (skipn k l)) by (rewrite S; left; reflexivity).
    apply sorted_app_older in Hs. rewrite Forall_forall in Hs.
    specialize (Hs f Hf). inversion Hs as [|? ? Hfx _]; subst. unfold older in Hfx.
    assert (Hne : x <> f).
    { intros ->. rewrite map_app in Hnd.
      eapply (nodup_app_disjoint _ _ (fname f) Hnd); apply in_map; auto.
      left. reflexivity. }
    specialize (Hnew x (skipn_incl k l x Hx) Hne). lia.
Qed.

(** X4: on a miss with [cache_size >= 1], in a directory whose files are older
    than the clock, the file the call writes is still there when the call
    returns: the path returned names a file of the directory, holding the
    body of the response. *)
Theorem X4_written_file_is_kept (env : Env) (url : string) (w : World) (m : Z)
    (r : Response) :
  wf_dir w -> past_mtimes w -> cache_size env = Ok m -> (1 <= m)%Z ->
  find (is_cached (url_key url)) (map fname (thumbs w)) = None ->
  http_get env url = Some r ->
  exists w',
    download_fanart env url w
      = (Ok (thumb_path env (cache_name (url_key url) (extension_of r))), w') /\
    In (mkFile (cache_name (url_key url) (extension_of r)) (clock w) (content r))
       (thumbs w').
Proof.
  intros Hwf Hpast Hm Hpos F G.
  pose proof (lookup_miss env url w r F G) as L.
  set (f := mkFile (cache_name (url_key url) (extension_of r)) (clock w) (content r)) in *.
  set (w1 := mkWorld (put_file f (thumbs w)) (S (clock w)) (url :: fetched w)
                     (cookies w) (session_headers w)) in *.
  assert (Hwf1 : wf_dir w1) by (unfold wf_dir; simpl; apply put_file_nodup, Hwf).
  eexists. split; [apply (download_fanart_run _ _ _ _ _ _ L Hwf1 Hm)|].
  cbn [thumbs set_thumbs].
  eapply Permutation_in; [apply sort_by_mtime_perm|].
  rewrite (sort_after_evict _ m Hwf1).
  apply newest_beyond_prefix.
  - apply sort_by_mtime_sorted.
  - apply sort_by_mtime_nodup, Hwf1.
  - eapply Permutation_in; [symmetry; apply sort_by_mtime_perm|]. apply put_file_in.
  - intros g Hg Hne.
    eapply Permutation_in in Hg; [|apply sort_by_mtime_perm].
    apply put_file_incl in Hg as [->|Hg]; [contradiction|].
    unfold past_mtimes in Hpast. rewrite Forall_forall in Hpast.
    apply (Hpast g Hg).
  - rewrite sort_by_mtime_length.
    apply evict_count_keeps_one; [exact Hpos|].
    pose proof (put_file_in f (thumbs w)) as Hin.
    simpl. destruct (put_file f (thumbs w)); [contradiction | simpl; lia].
Qed.

(** An image with a dotted content type, written over the file of the same
    name. *)
Lemma X4_written_file_is_kept_witness :
  exists w',
    download_fanart
      (mkEnv "/addon" (Ok 2%Z)
         (fun _ => Some (mkResponse (Some "image/vnd.microsoft.icon") "ICO"))
         (fun _ => None))
      "https://tv.gab.com/img/a"
      (mkWorld [mkFile "gabtv_a.vnd.microsoft.icon" 1 "OLD"; mkFile "gabtv_b.png" 2 "B"]
               3 [] [] [])
    = (Ok "/addon/resources/thumbnails/gabtv_a.vnd.microsoft.icon", w') /\
    In (mkFile "gabtv_a.vnd.microsoft.icon" 3 "ICO") (thumbs w').
Proof.
  apply (X4_written_file_is_kept
           (mkEnv "/addon" (Ok 2%Z)
              (fun _ => Some (mkResponse (Some "image/vnd.microsoft.icon") "ICO"))
              (fun _ => None))
           "https://tv.gab.com/img/a"
           (mkWorld [mkFile "gabtv_a.vnd.microsoft.icon" 1 "OLD"; mkFile "gabtv_b.png" 2 "B"]
                    3 [] [] [])
           2 (mkResponse (Some "image/vnd.microsoft.icon") "ICO")).
  - unfold wf_dir. simpl. repeat constructor; simpl; intuition discriminate.
  - unfold past_mtimes. simpl. repeat constructor.
  - reflexivity.
  - lia.
  - reflexivity.
  - reflexivity.
Defined.





(** X6: when the setting is not an integer, no call returns.  The setting is
    read after the lookup: on a hit the call raises the exception of [int]
    and changes nothing; on a miss whose fetch succeeds it raises that
    exception when the image has been fetched and written, and the file
    stays; on a miss whose fetch fails it raises [RequestException], the
    setting not yet read, and only the request is logged. *)
Theorem X6_bad_setting_raises_after_the_download (env : Env) (url : string)
    (w : World) (e : PyError) :
  cache_size env = Raise e ->
  (forall f w', download_fanart env url w <> (Ok f, w'))
  /\ (forall s, find (is_cached (url_key url)) (map fname (thumbs w)) = Some s ->
      download_fanart env url w = (Raise e, w))
  /\ (forall r, find (is_cached (url_key url)) (map fname (thumbs w)) = None ->
      http_get env url = Some r ->
      exists w1,
        download_fanart env url w = (Raise e, w1) /\
        fetched w1 = url :: fetched w /\
        In (mkFile (cache_name (url_key url) (extension_of r)) (clock w) (content r))
           (thumbs w1))
  /\ (find (is_cached (url_key url)) (map fname (thumbs w)) = None ->
      http_get env url = None ->
      download_fanart env url w
      = (Raise RequestException,
         mkWorld (thumbs w) (clock w) (url :: fetched w) (cookies w) (session_headers w))).
Proof.
  intros Hc.
  assert (Hit : forall s, find (is_cached (url_key url)) (map fname (thumbs w)) = Some s ->
                download_fanart env url w = (Raise e, w)).
  { intros s F. unfold download_fanart, bind. rewrite (lookup_hit _ _ _ _ F).
    unfold evict, bind. rewrite Hc. reflexivity. }
  assert (Miss : forall r, find (is_cached (url_key url)) (map fname (thumbs w)) = None ->
                 http_get env url = Some r ->
                 exists w1,
                   download_fanart env url w = (Raise e, w1) /\
                   fetched w1 = url :: fetched w /\
                   In (mkFile (cache_name (url_key url) (extension_of r))
                              (clock w) (content r)) (thumbs w1)).
  { intros r F G. unfold download_fanart, bind. rewrite (lookup_miss _ _ _ _ F G).
    unfold evict, bind. rewrite Hc. eexists. split; [reflexivity|].
    split; [reflexivity | apply put_file_in]. }
  assert (Fail : find (is_cached (url_key url)) (map fname (thumbs w)) = None ->
                 http_get env url = None ->
                 download_fanart env url w
                 = (Raise RequestException,
                    mkWorld (thumbs w) (clock w) (url :: fetched w)
                            (cookies w) (session_headers w))).
  { intros F G. unfold download_fanart, bind. rewrite (lookup_miss_fails _ _ _ F G).
    reflexivity. }
  split; [|split; [exact Hit | split; [exact Miss | exact Fail]]].
  intros f w' D.
  destruct (find (is_cached (url_key url)) (map fname (thumbs w))) as [s|] eqn:F.
  - rewrite (Hit s eq_refl) in D. discriminate.
  - destruct (http_get env url) as [r|] eqn:G.
    + destruct (Miss r eq_refl eq_refl) as (w1 & D1 & _). rewrite D1 in D. discriminate.
    + rewrite (Fail eq_refl eq_refl) in D. discriminate.
Qed.

(** A setting that [int] rejects, an empty directory. *)
Lemma X6_bad_setting_raises_after_the_download_witness :
  exists w1,
    download_fanart (mkEnv "/addon" (Raise ValueError) (fun _ => Some png) (fun _ => None))
      "https://tv.gab.com/img/a" w_empty = (Raise ValueError, w1) /\
    In (mkFile "gabtv_a.png" 0 "PNG") (thumbs w1).
Proof.
  destruct (X6_bad_setting_raises_after_the_download
              (mkEnv "/addon" (Raise ValueError) (fun _ => Some png) (fun _ => None))
              "https://tv.gab.com/img/a" w_empty ValueError eq_refl)
    as (_ & _ & Miss & _).
  destruct (Miss png eq_refl eq_refl) as (w1 & D & _ & Hin).
  exists w1. split; [exact D | exact Hin].
Defined.

(** X7: whatever a call does and however it ends, a file of the directory
    after it is a file that was there before, unchanged, or the one file
    the call has written on a miss: no other file is created, renamed or
    rewritten. *)
Theorem X7_other_files_untouched (env : Env) (url : string) (w w' : World)
    (out : result string) (g : File) :
  download_fanart env url w = (out, w') -> In g (thumbs w') ->
  In g (thumbs w)
  \/ exists r, find (is_cached (url_key url)) (map fname (thumbs w)) = None /\
               http_get env url = Some r /\
               g = mkFile (cache_name (url_key url) (extension_of r))
                          (clock w) (content r).
Proof.
  intros D Hg.
  apply download_fanart_split in D as (out1 & w1 & L & Hrest).
  assert (Hg1 : In g (thumbs w1)).
  { destruct Hrest as [(e & _ & _ & ->)|(f & ev & _ & Ev & _)]; [exact Hg|].
    apply evict_frame in Ev as (I & _). apply I, Hg. }
  apply lookup_cases in L as [(s & _ & _ & ->)|[(r & F & G & _ & ->)|(_ & _ & _ & ->)]].
  - left. exact Hg1.
  - simpl in Hg1. apply put_file_incl in Hg1 as [->|Hg1]; [right; eauto | left; exact Hg1].
  - left. exact Hg1.
Qed.

(** A miss in the directory of three files with [cache_size = 3]: the
    newest of the old files is still the same file. *)
Lemma X7_other_files_untouched_witness :
  In (mkFile "gabtv_c.png" 3 "C") (thumbs w_three)
  \/ exists r, find (is_cached (url_key "https://tv.gab.com/img/d"))
                    (map fname (thumbs w_three)) = None /\
               http_get (env_cache 3) "https://tv.gab.com/img/d" = Some r /\
               mkFile "gabtv_c.png" 3 "C"
               = mkFile (cache_name (url_key "https://tv.gab.com/img/d") (extension_of r))
                        (clock w_three) (content r).
Proof.
  apply (X7_other_files_untouched (env_cache 3) "https://tv.gab.com/img/d" w_three
           (snd (download_fanart (env_cache 3) "https://tv.gab.com/img/d" w_three))
           (fst (download_fanart (env_cache 3) "https://tv.gab.com/img/d" w_three))).
  - destruct (download_fanart _ _ _); reflexivity.
  - vm_compute. auto.
Defined.

(** ** The requests of a run *)

Lemma download_fanart_fetched (env : Env) (url : string) (w w' : World)
    (out : result string) :
  download_fanart env url w = (out, w') ->
  fetched w' = fetched w \/ fetched w' = url :: fetched w.
Proof.
  intros D.
  apply download_fanart_split in D as (out1 & w1 & L & Hrest).
  assert (E : fetched w' = fetched w1).
  { destruct Hrest as [(e & _ & _ & ->)|(f & ev & _ & Ev & _)]; [reflexivity|].
    apply evict_frame in Ev. apply Ev. }
  rewrite E.
  apply lookup_cases in L as [(s & _ & _ & ->)|[(r & _ & _ & _ & ->)|(_ & _ & _ & ->)]];
    simpl; auto.
Qed.

(** X8: a run over a sequence of URLs, however it ends, asks the network only
    for URLs of the sequence, and at most once per call: the log of
    requests grows by at most as many entries as there are URLs. *)
Theorem X8_requests_of_a_run (env : Env) (urls : list string) :
  forall (w w' : World) (out : result (list string)),
  download_all env urls w = (out, w') ->
  exists l, fetched w' = (l ++ fetched w)%list /\
            List.length l <= List.length urls /\ incl l urls.
Proof.
  induction urls as [|u r IH]; intros w w' out H; simpl in H.
  - inversion H; subst. exists []. simpl. repeat split; auto. apply incl_refl.
  - unfold bind in H.
    destruct (download_fanart env u w) as [[f|e] w1] eqn:D.
    + assert (A : exists out2, download_all env r w1 = (out2, w')).
      { destruct (download_all env r w1) as [[fr|e] w2]; inversion H; subst; eauto. }
      destruct A as (out2 & A). apply IH in A as (l & Hl & Hn & Hi).
      apply download_fanart_fetched in D as [E|E]; rewrite E in Hl.
      * exists l. repeat split; [exact Hl | simpl; lia | apply incl_tl, Hi].
      * exists (l ++ [u])%list. rewrite <- app_assoc. repeat split; [exact Hl | |].
        -- rewrite length_app. simpl. lia.
        -- apply incl_app; [apply incl_tl, Hi | intros x [<-|[]]; left; reflexivity].
    + inversion H; subst.
      apply download_fanart_fetched in D as [E|E]; rewrite E.
      * exists []. simpl. repeat split; [lia | apply incl_nil_l].
      * exists [u]. simpl. repeat split; [lia | intros x [<-|[]]; left; reflexivity].
Qed.

(** Three URLs with one key: one request. *)
Lemma X8_requests_of_a_run_witness :
  exists l,
    ["https://tv.gab.com/a/x"] = (l ++ fetched w_empty)%list /\
    List.length l <= 3 /\
    incl l ["https://tv.gab.com/a/x"; "https://tv.gab.com/b/x"; "https://tv.gab.com/c/x"].
Proof.
  apply (X8_requests_of_a_run (env_cache 2)
           ["https://tv.gab.com/a/x"; "https://tv.gab.com/b/x"; "https://tv.gab.com/c/x"]
           w_empty
           (mkWorld [mkFile "gabtv_x.png" 0 "PNG"] 1 ["https://tv.gab.com/a/x"] [] [])
           (Ok ["/addon/resources/thumbnails/gabtv_x.png";
                "/addon/resources/thumbnails/gabtv_x.png";
                "/addon/resources/thumbnails/gabtv_x.png"])).
  vm_compute. reflexivity.
Defined.

(** ** The path a call returns *)

Lemma rcut_none_inv (c : ascii) (s : string) :
  rcut c s = None -> has_char c s = false.
Proof.
  induction s as [|a r IH]; simpl; [reflexivity|].
  destruct (rcut c r) as [[b e]|]; [discriminate|].
  destruct (Ascii.eqb a c); [discriminate|]. intros _. apply IH. reflexivity.
Qed.

Lemma rcut_some (c : ascii) (s b e : string) :
  rcut c s = Some (b, e) ->
  s = b ++ e /\ exists e', e = String c e' /\ has_char c e' = false.
Proof.
  revert b e. induction s as [|a r IH]; simpl; intros b e H; [discriminate|].
  destruct (rcut c r) as [[b' e']|] eqn:R.
  - inversion H; subst. destruct (IH _ _ eq_refl) as (-> & He). split; [reflexivity | exact He].
  - destruct (Ascii.eqb a c) eqn:E; [|discriminate].
    inversion H; subst. apply Ascii.eqb_eq in E. subst a.
    split; [reflexivity|]. exists r. split; [reflexivity | apply rcut_none_inv, R].
Qed.

(** [os.path.splitext]: root and extension make up the path again, and
    the extension is empty or a dot followed by neither dot nor slash. *)
Lemma splitext_join (p r e : string) :
  splitext p = (r, e) ->
  p = r ++ e /\
  (e = EmptyString \/
   exists e', e = String "." e' /\ has_char "." e' = false /\ has_char "/" e' = false).
Proof.
  assert (Hnil : forall q, q = q ++ EmptyString).
  { induction q as [|a q IH]; simpl; [reflexivity | rewrite <- IH; reflexivity]. }
  assert (Hgen : forall head base,
             p = head ++ base -> has_char "/" base = false ->
             match rcut "." base with
             | Some (b, e0) => if all_char "." b then (p, EmptyString) else (head ++ b, e0)
             | None => (p, EmptyString)
             end = (r, e) ->
             p = r ++ e /\
             (e = EmptyString \/
              exists e', e = String "." e' /\ has_char "." e' = false /\
                         has_char "/" e' = false)).
  { intros head base Hp Hb H.
    destruct (rcut "." base) as [[b e0]|] eqn:R.
    - destruct (all_char "." b).
      + inversion H; subst r e. split; [apply Hnil | left; reflexivity].
      + inversion H; subst r e. apply rcut_some in R as (Hbase & e' & -> & Hd).
        split; [rewrite string_app_assoc, <- Hbase; exact Hp|].
        right. exists e'. repeat split; [exact Hd|].
        rewrite Hbase, has_char_app in Hb. simpl in Hb.
        apply orb_false_iff in Hb. apply Hb.
    - inversion H; subst r e. split; [apply Hnil | left; reflexivity]. }
  unfold splitext. destruct (rcut "/" p) as [[b e0]|] eqn:R.
  - apply rcut_some in R as (Hp & e' & -> & Hs).
    apply Hgen; [|exact Hs].
    rewrite string_app_assoc. exact Hp.
  - apply rcut_none_inv in R. apply (Hgen EmptyString p); [reflexivity | exact R].
Qed.

Lemma rcut_app_clean (c : ascii) (y e : string) :
  has_char c e = false ->
  rcut c (y ++ e) = match rcut c y with
                    | Some (b, e0) => Some (b, e0 ++ e)
                    | None => None
                    end.
Proof.
  intros He. induction y as [|a r IH]; simpl; [apply rcut_none, He|].
  rewrite IH. destruct (rcut c r) as [[b e0]|]; [reflexivity|].
  destruct (Ascii.eqb a c); reflexivity.
Qed.

(** The thumbnail directory never ends in a slash and is never empty,
    whatever the add-on's directory, so joining a file name to it puts one
    slash in between. *)
Lemma thumbnails_dir_join (env : Env) (name : string) :
  starts_with_slash name = false ->
  thumb_path env name = thumbnails_dir env ++ "/" ++ name.
Proof.
  intros Hn. unfold thumb_path, thumbnails_dir, os_path_join. simpl.
  set (d0 := join2 (addon_dir env) "resources").
  assert (Hd : exists y, join2 d0 "thumbnails" = y ++ "thumbnails").
  { unfold join2 at 1. simpl.
    destruct ((d0 =? EmptyString) || ends_with_slash d0).
    - exists d0. reflexivity.
    - exists (d0 ++ "/"). rewrite string_app_assoc. reflexivity. }
  destruct Hd as (y & ->). unfold join2 at 1. rewrite Hn.
  assert (E1 : (y ++ "thumbnails" =? EmptyString) = false)
    by (destruct y; reflexivity).
  assert (E2 : ends_with_slash (y ++ "thumbnails") = false).
  { unfold ends_with_slash. rewrite rcut_app_clean by reflexivity.
    destruct (rcut "/" y) as [[b e0]|] eqn:R; [|reflexivity].
    apply rcut_some in R as (_ & e' & -> & _). simpl.
    destruct e'; reflexivity. }
  rewrite E1, E2. reflexivity.
Qed.

Lemma download_fanart_lookup (env : Env) (url : string) (w w' : World) (f : string) :
  download_fanart env url w = (Ok f, w') ->
  exists w1, lookup_or_fetch env url w = (Ok f, w1).
Proof.
  intros D. apply download_fanart_split in D as (out1 & w1 & L & [(e & _ & E & _)|(f1 & ev & -> & _ & E)]);
    [discriminate|].
  destruct ev; inversion E; subst. eauto.
Qed.

(** X9: the path a call returns is always the thumbnail directory, a slash,
    [gabtv_], the last segment of the URL, and an extension that is empty
    or starts with a dot and has no slash: the art of an item is a file
    directly in the thumbnail directory, named after its URL. *)
Theorem X9_returned_path_shape (env : Env) (url : string) (w w' : World) (f : string) :
  download_fanart env url w = (Ok f, w') ->
  exists ext,
    f = thumbnails_dir env ++ "/" ++ "gabtv_" ++ url_key url ++ ext /\
    (ext = EmptyString \/ exists e, ext = String "." e) /\
    has_char "/" ext = false.
Proof.
  intros D. apply download_fanart_lookup in D as (w1 & L).
  apply lookup_cases in L as [(s & F & E & _)|[(r & _ & _ & E & _)|(_ & _ & E & _)]];
    [| |discriminate]; inversion E; subst f; clear E.
  - apply find_some in F as [_ Hc]. unfold is_cached in Hc.
    apply String.eqb_eq in Hc.
    destruct (splitext s) as [root e] eqn:S. simpl in Hc. subst root.
    apply splitext_join in S as (Hs & He).
    exists e. rewrite Hs.
    split; [apply (thumbnails_dir_join env ("gabtv_" ++ url_key url ++ e)); reflexivity|].
    destruct He as [->|(e' & -> & _ & Hsl)].
    + split; [left; reflexivity | reflexivity].
    + split; [right; eauto | simpl; exact Hsl].
  - exists ("." ++ extension_of r). split; [apply thumbnails_dir_join; reflexivity|].
    split; [right; eexists; reflexivity|].
    simpl. apply extension_no_slash.
Qed.

(** A hit on a file without extension, under a directory given with its
    trailing slash. *)
Lemma X9_returned_path_shape_witness :
  exists ext,
    "/addon/resources/thumbnails/gabtv_a"
      = thumbnails_dir (mkEnv "/addon/" (Ok 3%Z) (fun _ => None) (fun _ => None))
        ++ "/" ++ "gabtv_" ++ url_key "https://tv.gab.com/img/a" ++ ext /\
    (ext = EmptyString \/ exists e, ext = String "." e) /\
    has_char "/" ext = false.
Proof.
  apply (X9_returned_path_shape
           (mkEnv "/addon/" (Ok 3%Z) (fun _ => None) (fun _ => None))
           "https://tv.gab.com/img/a"
           (mkWorld [mkFile "gabtv_a" 1 "A"] 2 [] [] [])
           (mkWorld [mkFile "gabtv_a" 1 "A"] 2 [] [] [])).
  vm_compute. reflexivity.
Defined.

(** * More of the mapper *)

Lemma zip3_firstn (a b c : list string) :
  zip3 a b c
  = zip3 (firstn (Nat.min (List.length a) (Nat.min (List.length b) (List.length c))) a)
         (firstn (Nat.min (List.length a) (Nat.min (List.length b) (List.length c))) b)
         (firstn (Nat.min (List.length a) (Nat.min (List.length b) (List.length c))) c).
Proof.
  revert b c. induction a as [|x a IH]; intros [|y b] [|z c]; simpl; try reflexivity.
  rewrite <- IH. reflexivity.
Qed.

Lemma zip3_parts (a b c : list string) :
  map (fun x => fst (fst x)) (zip3 a b c)
    = firstn (Nat.min (List.length a) (Nat.min (List.length b) (List.length c))) a
  /\ map (fun x => snd (fst x)) (zip3 a b c)
    = firstn (Nat.min (List.length a) (Nat.min (List.length b) (List.length c))) b
  /\ map snd (zip3 a b c)
    = firstn (Nat.min (List.length a) (Nat.min (List.length b) (List.length c))) c.
Proof.
  revert b c. induction a as [|x a IH]; intros [|y b] [|z c]; simpl; auto.
  destruct (IH b c) as (H1 & H2 & H3). rewrite H1, H2, H3. auto.
Qed.

Lemma map_videos_loop_shape (env : Env) (l : list (string * string * string)) :
  forall (w w' : World) (items : list TitleItem),
  map_videos_loop env l w = (Ok items, w') ->
  map label items = map (fun x => fst (fst x)) l
  /\ map path items
     = map (fun x => play_video (segment (snd (fst x)) 2) (segment (snd (fst x)) 4)) l
  /\ Forall (fun i => is_playable i = true
                      /\ art_fanart i = art_thumb i /\ art_icon i = art_thumb i) items.
Proof.
  induction l as [|[[t v] a] r IH]; intros w w' items H; simpl in H.
  - inversion H; subst. simpl. auto.
  - unfold bind in H.
    destruct (Nat.le_gt_cases 5 (List.length (py_split "/" v))) as [Hv|Hv].
    + rewrite (map_video_good _ _ _ _ _ Hv) in H.
      destruct (download_fanart env a w) as [[art|e] w1]; [|discriminate].
      destruct (map_videos_loop env r w1) as [[its|e] w2] eqn:R; [|discriminate].
      inversion H; subst. destruct (IH _ _ _ R) as (H1 & H2 & H3).
      simpl. rewrite H1, H2. repeat split; auto.
    + rewrite (map_video_short _ _ _ _ _ Hv) in H. discriminate.
Qed.

(** X10: when the three sequences differ in length, the mapper works on the
    first [n] entries of each, [n] being the shortest length: a call that
    returns gives [n] items, labelled with the first [n] titles and routed
    by the first [n] references, and it is the very call on the three
    sequences cut to [n]. *)
Theorem X10_mapper_cuts_to_shortest (env : Env) (titles video_urls art_urls : list string)
    (w w' : World) (items : list TitleItem) :
  __map_videos env titles video_urls art_urls w = (Ok items, w') ->
  let n := Nat.min (List.length titles)
                   (Nat.min (List.length video_urls) (List.length art_urls)) in
  List.length items = n
  /\ map label items = firstn n titles
  /\ map path items
     = map (fun v => play_video (segment v 2) (segment v 4)) (firstn n video_urls)
  /\ __map_videos env (firstn n titles) (firstn n video_urls) (firstn n art_urls) w
     = (Ok items, w').
Proof.
  intros H n. unfold __map_videos in *.
  destruct (zip3_parts titles video_urls art_urls) as (P1 & P2 & _).
  fold n in P1, P2.
  destruct (map_videos_loop_shape _ _ _ _ _ H) as (H1 & H2 & _).
  assert (Hlab : map label items = firstn n titles) by (rewrite H1; exact P1).
  repeat split.
  - rewrite <- (length_map label), Hlab, length_firstn. unfold n. lia.
  - exact Hlab.
  - rewrite H2, <- P2, map_map. reflexivity.
  - rewrite <- H. unfold n. rewrite <- zip3_firstn. reflexivity.
Qed.

(** Three titles, two references, four images: two items. *)
Lemma X10_mapper_cuts_to_shortest_witness :
  exists items w',
    __map_videos (env_cache 5) ["t1"; "t2"; "t3"]
      ["/watch/CHAN42/view/V99/extra"; "/watch/C2/view/V2/x"]
      ["https://tv.gab.com/img/a"; "https://tv.gab.com/img/b";
       "https://tv.gab.com/img/c"; "https://tv.gab.com/img/d"] w_empty = (Ok items, w')
    /\ List.length items = 2 /\ map label items = ["t1"; "t2"].
Proof.
  destruct (__map_videos (env_cache 5) ["t1"; "t2"; "t3"]
      ["/watch/CHAN42/view/V99/extra"; "/watch/C2/view/V2/x"]
      ["https://tv.gab.com/img/a"; "https://tv.gab.com/img/b";
       "https://tv.gab.com/img/c"; "https://tv.gab.com/img/d"] w_empty)
    as [[items|e] w'] eqn:R; [|vm_compute in R; discriminate].
  exists items, w'. split; [reflexivity|].
  destruct (X10_mapper_cuts_to_shortest _ _ _ _ _ _ _ R) as (Hn & Hl & _).
  split; [exact Hn | exact Hl].
Defined.

Lemma loop_vs_download (env : Env) (l : list (string * string * string)) :
  Forall (fun x => 5 <= List.length (py_split "/" (snd (fst x)))) l ->
  forall w,
  snd (map_videos_loop env l w) = snd (download_all env (map snd l) w)
  /\ match fst (download_all env (map snd l) w) with
     | Ok paths =>
         exists items, fst (map_videos_loop env l w) = Ok items /\
                       map art_thumb items = paths /\ map art_fanart items = paths /\
                       map art_icon items = paths
     | Raise e => fst (map_videos_loop env l w) = Raise e
     end.
Proof.
  induction 1 as [|[[t v] a] r Hv Hr IH]; intros w; simpl.
  - split; [reflexivity|]. exists []. auto.
  - simpl in Hv. unfold bind. rewrite (map_video_good _ _ _ _ _ Hv).
    destruct (download_fanart env a w) as [[art|e] w1]; [|simpl; auto].
    destruct (IH w1) as (Hs & Hf).
    destruct (map_videos_loop env r w1) as [[its|e] w2];
      destruct (download_all env (map snd r) w1) as [[ps|e'] w3]; simpl in *; subst.
    + split; [reflexivity|]. destruct Hf as (items & E & H1 & H2 & H3).
      inversion E; subst. eexists. split; [reflexivity|]. simpl.
      rewrite H2, H3. auto.
    + discriminate.
    + destruct Hf as (items & E & _). discriminate.
    + split; [reflexivity | exact Hf].
Qed.

(** X11: for lists of any lengths, let [n] be the length of the shortest.
    When each of the first [n] references has its five segments, what the
    mapper does to the world is what downloading the first [n] art URLs
    one after the other does: the same final directory, clock and log of
    requests; it fails exactly when one of these downloads fails, with the
    same exception; and when it returns, the thumb, fanart and icon of
    every item are the path the download of its art URL returned. *)
Theorem X11_mapper_effects_are_the_downloads (env : Env)
    (titles video_urls art_urls : list string) (w : World) :
  let n := Nat.min (List.length titles)
                   (Nat.min (List.length video_urls) (List.length art_urls)) in
  Forall (fun v => 5 <= List.length (py_split "/" v)) (firstn n video_urls) ->
  snd (__map_videos env titles video_urls art_urls w)
  = snd (download_all env (firstn n art_urls) w)
  /\ match fst (download_all env (firstn n art_urls) w) with
     | Ok paths =>
         exists items,
           fst (__map_videos env titles video_urls art_urls w) = Ok items /\
           map art_thumb items = paths /\ map art_fanart items = paths /\
           map art_icon items = paths
     | Raise e => fst (__map_videos env titles video_urls art_urls w) = Raise e
     end.
Proof.
  intros n Hgood. unfold __map_videos.
  destruct (zip3_parts titles video_urls art_urls) as (_ & P2 & P3).
  fold n in P2, P3.
  assert (Hg : Forall (fun x => 5 <= List.length (py_split "/" (snd (fst x))))
                      (zip3 titles video_urls art_urls)).
  { apply Forall_forall. intros x Hx. rewrite Forall_forall in Hgood.
    apply Hgood. rewrite <- P2. apply in_map_iff. exists x. auto. }
  pose proof (loop_vs_download env _ Hg w) as H. rewrite P3 in H. exact H.
Qed.

(** Three titles, two references, three images; the second image cannot
    be fetched, the third is never asked for. *)
Lemma X11_mapper_effects_are_the_downloads_witness :
  fst (__map_videos
         (mkEnv "/addon" (Ok 5%Z)
            (fun u => if u =? "https://tv.gab.com/img/b" then None else Some png)
            (fun _ => None))
         ["t1"; "t2"; "t3"] ["/watch/CHAN42/view/V99/extra"; "/watch/C2/view/V2/x"]
         ["https://tv.gab.com/img/a"; "https://tv.gab.com/img/b";
          "https://tv.gab.com/img/c"] w_empty)
  = Raise RequestException.
Proof.
  exact (proj2 (X11_mapper_effects_are_the_downloads
           (mkEnv "/addon" (Ok 5%Z)
              (fun u => if u =? "https://tv.gab.com/img/b" then None else Some png)
              (fun _ => None))
           ["t1"; "t2"; "t3"] ["/watch/CHAN42/view/V99/extra"; "/watch/C2/view/V2/x"]
           ["https://tv.gab.com/img/a"; "https://tv.gab.com/img/b";
            "https://tv.gab.com/img/c"] w_empty
           ltac:(repeat (apply Forall_cons; [vm_compute; lia|]); apply Forall_nil))).
Defined.

Lemma map_videos_loop_app (env : Env) (l1 l2 : list (string * string * string)) :
  forall w,
  map_videos_loop env (l1 ++ l2)%list w
  = match map_videos_loop env l1 w with
    | (Ok i1, w1) => match map_videos_loop env l2 w1 with
                     | (Ok i2, w2) => (Ok (i1 ++ i2)%list, w2)
                     | (Raise e, w2) => (Raise e, w2)
                     end
    | (Raise e, w1) => (Raise e, w1)
    end.
Proof.
  induction l1 as [|[[t v] a] r IH]; intros w; simpl.
  - unfold ret. destruct (map_videos_loop env l2 w) as [[i2|e] w2]; reflexivity.
  - unfold bind, ret. destruct (map_video env t v a w) as [[it|e] w1]; [|reflexivity].
    rewrite IH. destruct (map_videos_loop env r w1) as [[i1|e] w2]; [|reflexivity].
    destruct (map_videos_loop env l2 w2) as [[i2|e] w3]; reflexivity.
Qed.

Lemma zip3_app (a1 b1 c1 a2 b2 c2 : list string) :
  List.length a1 = List.length b1 -> List.length b1 = List.length c1 ->
  zip3 (a1 ++ a2) (b1 ++ b2) (c1 ++ c2) = (zip3 a1 b1 c1 ++ zip3 a2 b2 c2)%list.
Proof.
  revert b1 c1. induction a1 as [|x a IH]; intros [|y b] [|z c] H1 H2;
    simpl in *; try discriminate; [reflexivity|].
  rewrite IH by lia. reflexivity.
Qed.

(** X12: a reference with fewer than five segments stops the mapper with
    [IndexError] before its own art is downloaded: when the references
    before it are good, the world is the one left by downloading the art
    of the items before it, nothing of the later items is looked at, and
    no item is returned (a download that fails earlier fails the mapper
    first). *)
Theorem X12_short_reference_stops_the_mapper (env : Env)
    (t1 v1 a1 t2 v2 a2 : list string) (t v a : string) (w : World) :
  List.length t1 = List.length v1 -> List.length v1 = List.length a1 ->
  Forall (fun x => 5 <= List.length (py_split "/" x)) v1 ->
  List.length (py_split "/" v) < 5 ->
  __map_videos env (t1 ++ t :: t2) (v1 ++ v :: v2) (a1 ++ a :: a2) w
  = match download_all env a1 w with
    | (Ok _, w1) => (Raise IndexError, w1)
    | (Raise e, w1) => (Raise e, w1)
    end.
Proof.
  intros Ht Hv Hgood Hshort. unfold __map_videos.
  rewrite zip3_app by assumption. rewrite map_videos_loop_app.
  destruct (zip3_parts t1 v1 a1) as (_ & P2 & P3).
  rewrite Ht, Hv, !Nat.min_id, firstn_all in P3.
  rewrite Ht, Hv, !Nat.min_id in P2. rewrite <- Hv, firstn_all in P2.
  assert (Hg : Forall (fun x => 5 <= List.length (py_split "/" (snd (fst x))))
                      (zip3 t1 v1 a1)).
  { apply Forall_forall. intros x Hx. rewrite Forall_forall in Hgood.
    apply Hgood. rewrite <- P2. apply in_map_iff. exists x. auto. }
  destruct (loop_vs_download env _ Hg w) as (Hs & Hf). rewrite P3 in Hs, Hf.
  destruct (map_videos_loop env (zip3 t1 v1 a1) w) as [[i1|e] w1];
    destruct (download_all env a1 w) as [[ps|e'] w1']; simpl in *; subst.
  - unfold bind. rewrite (map_video_short _ _ _ _ _ Hshort). reflexivity.
  - discriminate.
  - destruct Hf as (items & E & _). discriminate.
  - inversion Hf; subst. reflexivity.
Qed.

(** A good video, then a reference without slashes, then another good
    video: one image is downloaded, nothing is returned. *)
Lemma X12_short_reference_stops_the_mapper_witness :
  __map_videos (env_cache 5) ["t1"; "t2"; "t3"]
    ["/watch/CHAN42/view/V99/extra"; "abc"; "/watch/C2/view/V2/x"]
    ["https://tv.gab.com/img/a"; "https://tv.gab.com/img/b"; "https://tv.gab.com/img/c"]
    w_empty
  = (Raise IndexError,
     mkWorld [mkFile "gabtv_a.png" 0 "PNG"] 1 ["https://tv.gab.com/img/a"] [] []).
Proof.
  exact (X12_short_reference_stops_the_mapper (env_cache 5)
           ["t1"] ["/watch/CHAN42/view/V99/extra"] ["https://tv.gab.com/img/a"]
           ["t3"] ["/watch/C2/view/V2/x"] ["https://tv.gab.com/img/c"]
           "t2" "abc" "https://tv.gab.com/img/b" w_empty
           eq_refl eq_refl
           ltac:(repeat (apply Forall_cons; [vm_compute; lia|]); apply Forall_nil)
           ltac:(vm_compute; lia)).
Defined.

(** * Percent-encoding *)

Lemma all_chars_app (p : ascii -> bool) (x y : string) :
  all_chars p (x ++ y) = all_chars p x && all_chars p y.
Proof.
  induction x as [|a r IH]; simpl; [reflexivity|].
  rewrite IH, andb_assoc. reflexivity.
Qed.

Lemma all_chars_impl (p q : ascii -> bool) (s : string) :
  (forall c, p c = true -> q c = true) -> all_chars p s = true -> all_chars q s = true.
Proof.
  intros H. induction s as [|a r IH]; simpl; [reflexivity|].
  intros E. apply andb_true_iff in E as [Ea Er].
  rewrite (H a Ea), (IH Er). reflexivity.
Qed.

Lemma quote_plus_char (c : ascii) :
  all_chars query_char
    (if Ascii.eqb c " " then "+"
     else if unreserved c then String c EmptyString else percent c) = true.
Proof.
  destruct c as [[] [] [] [] [] [] [] []]; vm_compute; reflexivity.
Qed.

Lemma quote_char (c : ascii) :
  all_chars header_char
    (if unreserved c || Ascii.eqb c "/" then String c EmptyString else percent c) = true.
Proof.
  destruct c as [[] [] [] [] [] [] [] []]; vm_compute; reflexivity.
Qed.

Lemma quote_plus_chars (s : string) : all_chars query_char (quote_plus s) = true.
Proof.
  induction s as [|c r IH]; simpl; [reflexivity|].
  rewrite all_chars_app, quote_plus_char, IH. reflexivity.
Qed.

Lemma quote_chars (s : string) : all_chars header_char (quote s) = true.
Proof.
  induction s as [|c r IH]; simpl; [reflexivity|].
  rewrite all_chars_app, quote_char, IH. reflexivity.
Qed.

Lemma pct_decode_step (c : ascii) (q : string) :
  pct_decode ((if Ascii.eqb c " " then "+"
               else if unreserved c then String c EmptyString else percent c) ++ q)
  = String c (pct_decode q).
Proof.
  destruct c as [[] [] [] [] [] [] [] []]; reflexivity.
Qed.

Lemma pct_decode_quote_plus (s : string) : pct_decode (quote_plus s) = s.
Proof.
  induction s as [|c r IH]; [reflexivity|].
  cbn [quote_plus]. rewrite pct_decode_step, IH. reflexivity.
Qed.

Lemma append_inj_l (p x y : string) : p ++ x = p ++ y -> x = y.
Proof.
  induction p as [|a r IH]; simpl; intros H; [exact H|].
  inversion H. apply IH. assumption.
Qed.

(** X13: the search URL is the base URL, [/search?q=] and the query
    percent-encoded with only letters, digits, [_ . - ~], [%] and [+]: a
    query cannot add a parameter, a fragment or a path to the request.
    The encoding loses nothing: different queries are asked at different
    URLs. *)
Theorem X13_search_url_encodes_the_query (query : string) :
  (exists q, search_url query = BASE_URL ++ "/search?q=" ++ q /\
             all_chars query_char q = true /\ pct_decode q = query)
  /\ forall query', search_url query = search_url query' -> query = query'.
Proof.
  assert (E : forall x, search_url x = BASE_URL ++ "/search?q=" ++ quote_plus x)
    by reflexivity.
  split.
  - exists (quote_plus query). rewrite E.
    split; [reflexivity|]. split; [apply quote_plus_chars | apply pct_decode_quote_plus].
  - intros query' H. rewrite !E in H.
    apply append_inj_l in H. apply (append_inj_l "/search?q=") in H.
    rewrite <- (pct_decode_quote_plus query), <- (pct_decode_quote_plus query'), H.
    reflexivity.
Qed.

(** * The cookie header *)

(** Appends nested to the right, literals pushed through. *)
Ltac string_norm :=
  repeat first [rewrite string_app_assoc | progress cbn [append]].

Lemma cookie_line_fold (jar : list (string * string)) (acc : string) :
  fold_left (fun header c => header ++ fst c ++ "=" ++ snd c ++ ";") jar acc
  = acc ++ cookie_line jar.
Proof.
  unfold cookie_line. revert acc.
  induction jar as [|c r IH]; intros acc; cbn [fold_left].
  - induction acc as [|a q IHq]; simpl; [reflexivity | rewrite <- IHq; reflexivity].
  - rewrite IH, (IH (EmptyString ++ _)), string_app_assoc. reflexivity.
Qed.

Lemma drop_last_char_snoc (x : string) (c : ascii) :
  drop_last_char (x ++ String c EmptyString) = x.
Proof.
  induction x as [|a r IH]; simpl; [reflexivity|].
  rewrite IH. destruct r; reflexivity.
Qed.

Lemma cookie_line_join (jar : list (string * string)) :
  jar <> [] ->
  cookie_line jar = py_join ";" (map (fun c => fst c ++ "=" ++ snd c) jar) ++ ";".
Proof.
  induction jar as [|c r IH]; intros H; [contradiction|].
  assert (E : cookie_line (c :: r)
              = (fst c ++ "=" ++ snd c) ++ ";" ++ cookie_line r).
  { unfold cookie_line at 1. cbn [fold_left]. rewrite cookie_line_fold.
    string_norm. reflexivity. }
  rewrite E. destruct r as [|d r'].
  - reflexivity.
  - rewrite IH by discriminate. cbn [map py_join].
    string_norm. reflexivity.
Qed.

Lemma join_amp_chars (l : list string) :
  Forall (fun x => all_chars header_char x = true) l ->
  all_chars header_char (join_amp l) = true.
Proof.
  induction 1 as [|x r Hx Hr IH]; [reflexivity|].
  destruct r as [|y r']; [exact Hx|].
  cbn [join_amp]. rewrite !all_chars_app, Hx. simpl. exact IH.
Qed.

Lemma urlencode_chars (d : list (string * string)) :
  all_chars header_char (urlencode d) = true.
Proof.
  unfold urlencode. apply join_amp_chars. apply Forall_forall.
  intros x Hx. apply in_map_iff in Hx as (kv & <- & _).
  assert (Hq : forall s, all_chars header_char (quote_plus s) = true).
  { intros s. eapply all_chars_impl; [|apply quote_plus_chars].
    intros c Hc. unfold header_char. rewrite Hc. reflexivity. }
  rewrite !all_chars_app, !Hq. reflexivity.
Qed.

Lemma all_distinct_nodup (l : list string) : all_distinct l = true <-> NoDup l.
Proof.
  induction l as [|x r IH]; simpl; [split; [constructor | reflexivity]|].
  rewrite andb_true_iff, negb_true_iff, IH. split.
  - intros [Hx Hr]. constructor; [|exact Hr]. intros Hin.
    assert (E : existsb (String.eqb x) r = true).
    { apply existsb_exists. exists x. split; [exact Hin | apply String.eqb_refl]. }
    congruence.
  - intros H. inversion H as [|? ? Hx Hr]; subst. split; [|exact Hr].
    destruct (existsb (String.eqb x) r) eqn:E; [|reflexivity].
    apply existsb_exists in E as (y & Hy & Ey). apply String.eqb_eq in Ey. subst y.
    contradiction.
Qed.

(** The lookup of a name the jar does not hold ends with what was found
    before. *)
Lemma find_no_duplicates_absent (name : string) (jar : list (string * string))
    (acc : option string) :
  ~ In name (map fst jar) ->
  find_no_duplicates name jar acc = find_no_duplicates name [] acc.
Proof.
  induction jar as [|c r IH]; intros H; [reflexivity|].
  cbn [find_no_duplicates]. destruct (fst c =? name) eqn:E.
  - apply String.eqb_eq in E. exfalso. apply H. left. exact E.
  - apply IH. intros Hin. apply H. right. exact Hin.
Qed.

Lemma find_no_duplicates_some (name : string) (jar : list (string * string))
    (a v : string) :
  find_no_duplicates name jar (Some a) = Ok v ->
  ~ In name (map fst jar) /\ v = a /\ v <> EmptyString.
Proof.
  induction jar as [|c r IH]; cbn [find_no_duplicates].
  - destruct (a =? EmptyString) eqn:E; [discriminate|].
    intros H. inversion H; subst. apply String.eqb_neq in E. auto.
  - destruct (fst c =? name) eqn:E; [discriminate|].
    intros H. destruct (IH H) as (Hn & Hv & He). repeat split; auto.
    simpl. intros [Hc|Hin]; [|contradiction].
    apply String.eqb_neq in E. contradiction.
Qed.

(** A lookup that returns has met the name once, with that value, which
    is not empty. *)
Lemma find_no_duplicates_ok (name : string) (jar : list (string * string)) (v : string) :
  find_no_duplicates name jar None = Ok v ->
  v <> EmptyString /\
  exists l1 l2, jar = (l1 ++ (name, v) :: l2)%list /\
                ~ In name (map fst l1) /\ ~ In name (map fst l2).
Proof.
  induction jar as [|c r IH]; cbn [find_no_duplicates]; [discriminate|].
  destruct (fst c =? name) eqn:E.
  - apply String.eqb_eq in E. intros H.
    apply find_no_duplicates_some in H as (Hn & Hv & He). subst v.
    split; [exact He|]. exists [], r. destruct c as [n x]. simpl in *. subst n. auto.
  - intros H. destruct (IH H) as (He & l1 & l2 & -> & H1 & H2).
    split; [exact He|]. exists (c :: l1), l2. repeat split; auto.
    simpl. intros [Hc|Hin]; [|contradiction].
    apply String.eqb_neq in E. contradiction.
Qed.

Lemma find_no_duplicates_in (jar : list (string * string)) (n v : string) :
  NoDup (map fst jar) -> In (n, v) jar -> v <> EmptyString ->
  find_no_duplicates n jar None = Ok v.
Proof.
  induction jar as [|c r IH]; intros Hnd Hin Hv; [contradiction|].
  inversion Hnd as [|? ? Hc Hr]; subst. cbn [find_no_duplicates].
  destruct (fst c =? n) eqn:E.
  - apply String.eqb_eq in E. destruct Hin as [->|Hin].
    + rewrite find_no_duplicates_absent by exact Hc. simpl.
      apply String.eqb_neq in Hv. rewrite Hv. reflexivity.
    + exfalso. apply Hc. rewrite E. apply (in_map fst _ _ Hin).
  - destruct Hin as [->|Hin]; [simpl in E; rewrite String.eqb_refl in E; discriminate|].
    apply IH; assumption.
Qed.

Lemma find_no_duplicates_raise (name : string) (jar : list (string * string))
    (acc : option string) (e : PyError) :
  find_no_duplicates name jar acc = Raise e -> e = KeyError \/ e = CookieConflictError.
Proof.
  revert acc. induction jar as [|c r IH]; intros acc; cbn [find_no_duplicates].
  - destruct acc as [a|]; [destruct (a =? EmptyString)|]; intros H; inversion H; auto.
  - destruct (fst c =? name); [destruct acc|]; try apply IH.
    intros H; inversion H; auto.
Qed.

Lemma dict_keys_distinct (jar : list (string * string)) :
  NoDup (map fst jar) -> dict_keys jar = map fst jar.
Proof.
  induction jar as [|c r IH]; intros H; [reflexivity|].
  inversion H as [|? ? Hc Hr]; subst. cbn [dict_keys map]. rewrite (IH Hr). f_equal.
  apply forallb_filter_id, forallb_forall. intros k Hk.
  apply negb_true_iff, String.eqb_neq. intros ->. contradiction.
Qed.

Lemma dict_keys_in (jar : list (string * string)) (n : string) :
  In n (map fst jar) -> In n (dict_keys jar).
Proof.
  induction jar as [|c r IH]; intros H; [contradiction|].
  cbn [dict_keys]. destruct (String.eqb_spec n (fst c)) as [->|Hne]; [left; reflexivity|].
  right. apply filter_In. split.
  - apply IH. destruct H as [H|H]; [congruence | exact H].
  - apply negb_true_iff, String.eqb_neq, Hne.
Qed.

Lemma cookie_loop_ok (jar l : list (string * string)) :
  (forall c, In c l -> find_no_duplicates (fst c) jar None = Ok (snd c)) ->
  forall header,
  cookie_loop jar (map fst l) header
  = Ok (fold_left (fun h c => h ++ fst c ++ "=" ++ snd c ++ ";") l header).
Proof.
  induction l as [|c r IH]; intros H header; [reflexivity|].
  cbn [map cookie_loop fold_left]. rewrite (H c) by (left; reflexivity).
  apply IH. intros d Hd. apply H. right. exact Hd.
Qed.

Lemma cookie_loop_inv (jar : list (string * string)) (names : list string) :
  forall header line, cookie_loop jar names header = Ok line ->
  forall k, In k names -> exists v, find_no_duplicates k jar None = Ok v.
Proof.
  induction names as [|n r IH]; intros header line H k Hk; [contradiction|].
  cbn [cookie_loop] in H.
  destruct (find_no_duplicates n jar None) as [v|e] eqn:F; [|discriminate].
  destruct Hk as [<-|Hk]; [eauto | eapply IH; eauto].
Qed.

Lemma cookie_loop_raise (jar : list (string * string)) (names : list string) :
  forall header e, cookie_loop jar names header = Raise e ->
  e = KeyError \/ e = CookieConflictError.
Proof.
  induction names as [|n r IH]; intros header e H; cbn [cookie_loop] in H; [discriminate|].
  destruct (find_no_duplicates n jar None) as [v|e'] eqn:F.
  - eapply IH; eauto.
  - inversion H; subst. eapply find_no_duplicates_raise; eauto.
Qed.

Lemma count_occ_absent (l : list string) (x : string) :
  ~ In x l -> count_occ string_dec l x = 0.
Proof. apply count_occ_not_In. Qed.

(** The loop over the cookies returns exactly on a jar that can be read,
    and then with the line of all its cookies. *)
Lemma cookie_loop_jar (jar : list (string * string)) :
  if jar_ok jar
  then cookie_loop jar (dict_keys jar) EmptyString = Ok (cookie_line jar)
  else exists e, cookie_loop jar (dict_keys jar) EmptyString = Raise e
                 /\ (e = KeyError \/ e = CookieConflictError).
Proof.
  destruct (jar_ok jar) eqn:J.
  - unfold jar_ok in J. apply andb_true_iff in J as [Hd Hv].
    apply all_distinct_nodup in Hd. rewrite (dict_keys_distinct _ Hd).
    apply cookie_loop_ok. intros [n v] Hc. simpl.
    apply find_no_duplicates_in; [exact Hd | exact Hc|].
    rewrite forallb_forall in Hv. specialize (Hv _ Hc). simpl in Hv.
    apply negb_true_iff, String.eqb_neq in Hv. exact Hv.
  - destruct (cookie_loop jar (dict_keys jar) EmptyString) as [line|e] eqn:L.
    + exfalso.
      assert (Hall : forall c, In c jar ->
                snd c <> EmptyString /\
                exists l1 l2, jar = (l1 ++ c :: l2)%list /\
                              ~ In (fst c) (map fst l1) /\ ~ In (fst c) (map fst l2)).
      { intros [n v] Hc. simpl.
        destruct (cookie_loop_inv _ _ _ _ L n) as (v' & F).
        { apply dict_keys_in. apply (in_map fst _ _ Hc). }
        apply find_no_duplicates_ok in F as (He & l1 & l2 & E & H1 & H2).
        assert (v = v').
        { rewrite E in Hc. apply in_app_or in Hc as [Hc|[Hc|Hc]].
          - exfalso. apply H1. apply (in_map fst _ _ Hc).
          - inversion Hc. reflexivity.
          - exfalso. apply H2. apply (in_map fst _ _ Hc). }
        subst v'. split; [exact He|]. exists l1, l2. auto. }
      assert (Hd : NoDup (map fst jar)).
      { apply (NoDup_count_occ string_dec). intros x.
        destruct (in_dec string_dec x (map fst jar)) as [Hin|Hnin].
        - apply in_map_iff in Hin as (c & <- & Hc).
          destruct (Hall c Hc) as (_ & l1 & l2 & E & H1 & H2).
          rewrite E at 1. rewrite map_app, count_occ_app. cbn [map].
          rewrite count_occ_cons_eq by reflexivity.
          rewrite (count_occ_absent _ _ H1), (count_occ_absent _ _ H2). lia.
        - rewrite (count_occ_absent _ _ Hnin). lia. }
      assert (Hv : forallb (fun c => negb (snd c =? EmptyString)) jar = true).
      { apply forallb_forall. intros c Hc. apply negb_true_iff, String.eqb_neq.
        apply (Hall c Hc). }
      unfold jar_ok in J. apply all_distinct_nodup in Hd. rewrite Hd, Hv in J.
      discriminate.
    + exists e. split; [reflexivity|]. eapply cookie_loop_raise; eauto.
Qed.

(** The two ways [kodi_header] can go. *)
Lemma kodi_header_cases (w : World) :
  if jar_ok (cookies w)
  then kodi_header w
       = (Ok ("|" ++ "Cookie=" ++ quote (drop_last_char (cookie_line (cookies w)))
                  ++ "&" ++ urlencode (session_headers w)), w)
  else exists e, kodi_header w = (Raise e, w)
                 /\ (e = KeyError \/ e = CookieConflictError).
Proof.
  pose proof (cookie_loop_jar (cookies w)) as H.
  unfold kodi_header, bind, gets. destruct (jar_ok (cookies w)).
  - rewrite H. reflexivity.
  - destruct H as (e & -> & He). exists e. split; [reflexivity | exact He].
Qed.

(** X14: [kodi_header] changes nothing, and it returns exactly when the jar
    has no two cookies of the same name and no cookie with an empty value;
    on any other jar the lookup [session.cookies[element]] raises
    [KeyError] (empty value) or [CookieConflictError] (name held twice).
    When it returns, its result is a bar, [Cookie=], the percent-encoded
    cookie line, [&] and the encoded session headers, where the cookie
    line is the [name=value] of the cookies separated by semicolons,
    without a semicolon at the end (and empty for an empty jar); after the
    leading bar there is no other bar, no space and no semicolon: only
    letters, digits, [_ . - ~ / % + = &]. *)
Theorem X14_kodi_header_format (w : World) :
  (jar_ok (cookies w) = true ->
   exists tail,
     kodi_header w = (Ok (String "|" tail), w)
     /\ tail = "Cookie="
               ++ quote (py_join ";" (map (fun c => fst c ++ "=" ++ snd c) (cookies w)))
               ++ "&" ++ urlencode (session_headers w)
     /\ all_chars header_char tail = true)
  /\ (jar_ok (cookies w) = false ->
      exists e, kodi_header w = (Raise e, w)
                /\ (e = KeyError \/ e = CookieConflictError)).
Proof.
  pose proof (kodi_header_cases w) as H. split; intros J; rewrite J in H.
  - assert (Hline : drop_last_char (cookie_line (cookies w))
                    = py_join ";" (map (fun c => fst c ++ "=" ++ snd c) (cookies w))).
    { destruct (cookies w) as [|c r] eqn:E; [reflexivity|].
      rewrite cookie_line_join by discriminate. apply drop_last_char_snoc. }
    rewrite Hline in H. eexists. split; [exact H|]. split; [reflexivity|].
    repeat first [rewrite all_chars_app | progress cbn [append all_chars]].
    rewrite quote_chars, urlencode_chars. reflexivity.
  - exact H.
Qed.

(** A cookie without value, then a cookie set for two domains. *)
Lemma X14_kodi_header_format_witness :
  kodi_header (mkWorld [] 0 [] [("a", EmptyString)] []) 
    = (Raise KeyError, mkWorld [] 0 [] [("a", EmptyString)] [])
  /\ kodi_header (mkWorld [] 0 [] [("sid", "1"); ("sid", "2")] [])
    = (Raise CookieConflictError, mkWorld [] 0 [] [("sid", "1"); ("sid", "2")] [])
  /\ exists tail, kodi_header w_cookie = (Ok (String "|" tail), w_cookie).
Proof.
  split; [|split].
  - destruct (proj2 (X14_kodi_header_format (mkWorld [] 0 [] [("a", EmptyString)] []))
                eq_refl) as (e & He & _).
    rewrite He. vm_compute in He. inversion He; subst. reflexivity.
  - destruct (proj2 (X14_kodi_header_format
                       (mkWorld [] 0 [] [("sid", "1"); ("sid", "2")] [])) eq_refl)
      as (e & He & _).
    rewrite He. vm_compute in He. inversion He; subst. reflexivity.
  - destruct (proj1 (X14_kodi_header_format w_cookie) eq_refl) as (tail & H & _).
    exists tail. exact H.
Defined.

(** * The scrapers *)

Lemma py_split_app (c : ascii) (x y : string) :
  py_split c (x ++ String c y) = (py_split c x ++ py_split c y)%list.
Proof.
  induction x as [|a r IH]; simpl.
  - rewrite Ascii.eqb_refl. reflexivity.
  - destruct (Ascii.eqb a c); rewrite IH; [reflexivity|].
    destruct (py_split c r) as [|h t] eqn:S; [|reflexivity].
    exfalso. eapply py_split_not_nil; eauto.
Qed.

(** The last segment of [prefix/slug] is [slug]. *)
Lemma py_last_split_suffix (c : ascii) (x s : string) :
  has_char c s = false -> py_last (py_split c (x ++ String c s)) = s.
Proof.
  intros H. rewrite py_split_app, (py_split_no_sep c s H).
  unfold py_last. apply last_last.
Qed.

Lemma scrape_entry_ok (r : Node) (art : string) (v t : option string) :
  scrape_entry r = Ok (art, v, t) ->
  exists d thumb img src,
    soup_find (is_tag "div") r = Some d /\
    v = tag_get "data-episode-url" d /\ t = tag_get "title" d /\
    soup_find (is_tag_class "div" "studio-episode-thumbnail") r = Some thumb /\
    soup_find (is_tag "img") thumb = Some img /\
    tag_get "src" img = Some src /\ art = BASE_URL ++ src.
Proof.
  unfold scrape_entry, found, base_plus.
  destruct (soup_find (is_tag_class "div" "studio-episode-thumbnail") r) as [thumb|] eqn:E1;
    [|discriminate].
  destruct (soup_find (is_tag "img") thumb) as [img|] eqn:E2; [|discriminate].
  destruct (tag_get "src" img) as [src|] eqn:E3; [|discriminate].
  destruct (soup_find (is_tag "div") r) as [d|] eqn:E4; [|discriminate].
  intros H. inversion H; subst. exists d, thumb, img, src.
  repeat split; assumption || reflexivity.
Qed.

Lemma map_video_dyn_ok (env : Env) (t v : option string) (a : string)
    (w w' : World) (item : TitleItem) :
  map_video_dyn env t v a w = (Ok item, w') ->
  exists ref, v = Some ref /\ t = Some (label item) /\
              path item = play_video (segment ref 2) (segment ref 4) /\
              is_playable item = true.
Proof.
  unfold map_video_dyn. destruct v as [ref|]; [|discriminate].
  unfold bind, index_or_raise, py_index.
  destruct (nth_error (py_split "/" ref) 2) as [c|] eqn:E2; [|discriminate].
  unfold ret at 1.
  destruct (nth_error (py_split "/" ref) 4) as [vw|] eqn:E4; [|discriminate].
  unfold ret at 1.
  destruct (download_fanart env a w) as [[art|e] w1]; [|discriminate].
  destruct t as [tt|]; [|discriminate].
  unfold ret. intros H. inversion H; subst. simpl. exists ref.
  unfold segment. rewrite (nth_error_nth _ _ _ E2), (nth_error_nth _ _ _ E4). auto.
Qed.

Lemma entries_items (env : Env) (rs : list Node) :
  forall entries, scrape_entries rs = Ok entries ->
  forall w items w', map_videos_dyn env entries w = (Ok items, w') ->
  Forall2 entry_of rs items.
Proof.
  induction rs as [|r rest IH]; intros entries S w items w' Mv; simpl in S.
  - inversion S; subst. simpl in Mv. inversion Mv; subst. constructor.
  - destruct (scrape_entry r) as [[[art v] t]|e] eqn:E; [|discriminate].
    destruct (scrape_entries rest) as [xs|e] eqn:R; [|discriminate].
    inversion S; subst. simpl in Mv. unfold bind in Mv.
    destruct (map_video_dyn env t v art w) as [[item|e] w1] eqn:D; [|discriminate].
    destruct (map_videos_dyn env xs w1) as [[its|e] w2] eqn:Mr; [|discriminate].
    inversion Mv; subst. constructor; [|eapply IH; eauto].
    apply scrape_entry_ok in E as (d & thumb & img & src & Hd & -> & -> & Ht & Hi & Hs & _).
    apply map_video_dyn_ok in D as (ref & Hv & Htt & Hp & Hpl).
    exists d, ref, thumb, img, src. auto 10.
Qed.

(** The shape shared by the three scrapers of video listings: fetch the
    page, select the result elements, read the entries, map them. *)
Lemma scrape_listing_ok (env : Env) (pages : string -> option HtmlPage)
    (url : string) (sel : Node -> result (list Node))
    (w w' : World) (items : list TitleItem) :
  bind (soup_get pages url)
       (fun soup => bind (lift (sel soup))
          (fun results => bind (lift (scrape_entries results))
             (fun entries => map_videos_dyn env entries))) w = (Ok items, w') ->
  exists p rs, pages url = Some p /\ sel (html_soup p) = Ok rs /\
               Forall2 entry_of rs items.
Proof.
  unfold bind at 1. unfold soup_get.
  destruct (pages url) as [p|] eqn:P; [|discriminate].
  unfold bind at 1. destruct (sel (html_soup p)) as [rs|e] eqn:S; simpl; [|discriminate].
  unfold bind at 1.
  destruct (scrape_entries rs) as [entries|e] eqn:E; simpl; [|discriminate].
  intros H. exists p, rs. split; [reflexivity|]. split; [exact S|].
  eapply entries_items; eauto.
Qed.

(** X15: a listing of videos follows its page.  When a scraper of videos
    returns, the page was fetched; the result elements are the child
    [div]s of the first [div] of class [uk-grid-small uk-flex-center] (the
    explore and the search pages) or all the [div]s of the card class (a
    category page); and there is one item per result element, in the order
    of the page, each read off its element: title and reference from the
    first [div] inside it, route from the segments 2 and 4 of the
    reference. *)
Theorem X15_video_listing_follows_the_page (env : Env)
    (pages : string -> option HtmlPage) (w w' : World) (items : list TitleItem) :
  (scrape_explore_menu env pages w = (Ok items, w') ->
   exists p grid, pages BASE_URL = Some p /\
     soup_find (is_tag_class "div" "uk-grid-small uk-flex-center") (html_soup p)
       = Some grid /\
     Forall2 entry_of (findChildren (is_tag "div") grid) items)
  /\ (forall query, scrape_search_results env pages query w = (Ok items, w') ->
      exists p grid, pages (search_url query) = Some p /\
        soup_find (is_tag_class "div" "uk-grid-small uk-flex-center") (html_soup p)
          = Some grid /\
        Forall2 entry_of (findChildren (is_tag "div") grid) items)
  /\ (forall category, scrape_category env pages category w = (Ok items, w') ->
      exists p, pages (BASE_URL ++ "/category/" ++ category) = Some p /\
        Forall2 entry_of (find_all (is_tag_class "div" card_class) (html_soup p)) items).
Proof.
  assert (Hgrid : forall soup rs, grid_results soup = Ok rs ->
            exists grid,
              soup_find (is_tag_class "div" "uk-grid-small uk-flex-center") soup
                = Some grid /\ rs = findChildren (is_tag "div") grid).
  { intros soup rs. unfold grid_results.
    destruct (soup_find _ soup) as [grid|] eqn:G; simpl; [|discriminate].
    intros H. inversion H; subst. eauto. }
  split; [|split].
  - intros H. apply scrape_listing_ok in H as (p & rs & Hp & Hs & Hf).
    apply Hgrid in Hs as (grid & Hg & ->). eauto.
  - intros query H. apply scrape_listing_ok in H as (p & rs & Hp & Hs & Hf).
    apply Hgrid in Hs as (grid & Hg & ->). eauto.
  - intros category H.
    apply (scrape_listing_ok env pages _
             (fun soup => Ok (find_all (is_tag_class "div" card_class) soup)))
      in H as (p & rs & Hp & Hs & Hf).
    inversion Hs; subst. eauto.
Qed.

(** The explore page with two cards. *)
Lemma X15_video_listing_follows_the_page_witness :
  exists items w',
    scrape_explore_menu (env_cache 5) (fun _ => Some sample_listing) w_empty
      = (Ok items, w') /\
    map label items = ["T1"; "T2"] /\
    exists p grid, Some sample_listing = Some p /\
      soup_find (is_tag_class "div" "uk-grid-small uk-flex-center") (html_soup p)
        = Some grid /\
      Forall2 entry_of (findChildren (is_tag "div") grid) items.
Proof.
  destruct (scrape_explore_menu (env_cache 5) (fun _ => Some sample_listing) w_empty)
    as [[items|e] w'] eqn:R; [|vm_compute in R; discriminate].
  exists items, w'. split; [reflexivity|]. split.
  - vm_compute in R. inversion R; subst. reflexivity.
  - exact (proj1 (X15_video_listing_follows_the_page (env_cache 5)
                    (fun _ => Some sample_listing) w_empty w' items) R).
Defined.

Lemma category_entry_ok (env : Env) (r : Node) (w w' : World) (item : CategoryItem) :
  category_entry env r w = (Ok item, w') -> category_of r item.
Proof.
  unfold category_entry, bind, lift, found, base_plus, first_content, href_slug.
  destruct (soup_find (is_tag "img") r) as [img|]; [|discriminate]. unfold ret at 1.
  destruct (tag_get "src" img) as [src|]; [|discriminate]. unfold ret at 1.
  destruct (download_fanart env (BASE_URL ++ src) w) as [[art|e] w1]; [|discriminate].
  destruct (soup_find (is_tag_class "div" "uk-text-bold uk-text-truncate") r) as [d|] eqn:Ed;
    [|discriminate].
  unfold ret at 1.
  destruct d as [nm cl at' [|c cs]|s]; try discriminate. unfold ret at 1.
  destruct (soup_find (is_tag "a") r) as [a|] eqn:Ea; [|discriminate]. unfold ret at 1.
  destruct (tag_get "href" a) as [href|] eqn:Hh; [|discriminate].
  unfold ret. intros H. inversion H; subst.
  exists a, href, (Elem nm cl at' (c :: cs)). simpl.
  repeat split; auto.
  intros prefix slug -> Hs. rewrite (py_last_split_suffix "/" prefix slug Hs). reflexivity.
Qed.

Lemma category_entries_ok (env : Env) (rs : list Node) :
  forall w items w', category_entries env rs w = (Ok items, w') ->
  Forall2 category_of rs items.
Proof.
  induction rs as [|r rest IH]; intros w items w' H; simpl in H.
  - inversion H; subst. constructor.
  - unfold bind in H.
    destruct (category_entry env r w) as [[item|e] w1] eqn:E; [|discriminate].
    destruct (category_entries env rest w1) as [[its|e] w2] eqn:R; [|discriminate].
    inversion H; subst. constructor; [eapply category_entry_ok; eauto | eapply IH; eauto].
Qed.

(** X16: the index of categories follows its page.  When [list_categories]
    returns, there is one entry per child [div] of the first [div] of
    class [uk-flex-center], in the order of the page; the route of an
    entry is the category named by the last segment of the [href] of the
    first link in its element (for a link to [.../category/horror], the
    category [horror]), and its label is the first node inside the label
    [div]. *)
Theorem X16_category_index_follows_the_page (env : Env)
    (pages : string -> option HtmlPage) (w w' : World) (items : list CategoryItem) :
  list_categories env pages w = (Ok items, w') ->
  exists p grid, pages (BASE_URL ++ "/category") = Some p /\
    soup_find (is_tag_class "div" "uk-flex-center") (html_soup p) = Some grid /\
    Forall2 category_of (findChildren (is_tag "div") grid) items.
Proof.
  unfold list_categories. unfold bind at 1. unfold soup_get.
  destruct (pages (BASE_URL ++ "/category")) as [p|] eqn:P; [|discriminate].
  unfold bind at 1, lift, found.
  destruct (soup_find (is_tag_class "div" "uk-flex-center") (html_soup p)) as [grid|] eqn:G;
    [|discriminate].
  unfold ret at 1. intros H. exists p, grid. split; [reflexivity|].
  split; [exact G|]. eapply category_entries_ok; eauto.
Qed.

(** The index with the category [horror]. *)
Lemma X16_category_index_follows_the_page_witness :
  exists items w',
    list_categories (env_cache 5) (fun _ => Some sample_index) w_empty = (Ok items, w') /\
    map cat_path items = [categories (Some "horror")] /\
    exists p grid, Some sample_index = Some p /\
      soup_find (is_tag_class "div" "uk-flex-center") (html_soup p) = Some grid /\
      Forall2 category_of (findChildren (is_tag "div") grid) items.
Proof.
  destruct (list_categories (env_cache 5) (fun _ => Some sample_index) w_empty)
    as [[items|e] w'] eqn:R; [|vm_compute in R; discriminate].
  exists items, w'. split; [reflexivity|]. split.
  - vm_compute in R. inversion R; subst. reflexivity.
  - exact (X16_category_index_follows_the_page (env_cache 5)
             (fun _ => Some sample_index) w_empty w' items R).
Defined.

Lemma no_div_no_match (soup : Node) (cls : string) :
  Forall (fun n => is_tag "div" n = false) (descendants soup) ->
  soup_find (is_tag_class "div" cls) soup = None
  /\ find_all (is_tag_class "div" cls) soup = [].
Proof.
  intros H. unfold soup_find, find_all.
  induction (descendants soup) as [|n r IH]; simpl; [auto|].
  inversion H as [|? ? Hn Hr]; subst.
  assert (E : is_tag_class "div" cls n = false).
  { destruct n as [nm cl a cs|s]; simpl in *; [|reflexivity]. rewrite Hn. reflexivity. }
  rewrite E. apply IH, Hr.
Qed.

(** X17: a page without any [div] (an error page, a site that has changed)
    makes the explore listing, the search listing and the index of
    categories raise [AttributeError], but the listing of a category
    return an empty list as if the category had no video.  In all four
    cases nothing is downloaded and the thumbnail directory is left alone:
    the world is the one after the request. *)
Theorem X17_page_without_div (env : Env) (pages : string -> option HtmlPage)
    (p : HtmlPage) (query category : string) (w : World) :
  Forall (fun n => is_tag "div" n = false) (descendants (html_soup p)) ->
  pages BASE_URL = Some p -> pages (search_url query) = Some p ->
  pages (BASE_URL ++ "/category") = Some p ->
  pages (BASE_URL ++ "/category/" ++ category) = Some p ->
  scrape_explore_menu env pages w = (Raise AttributeError, after_get p w)
  /\ scrape_search_results env pages query w = (Raise AttributeError, after_get p w)
  /\ list_categories env pages w = (Raise AttributeError, after_get p w)
  /\ scrape_category env pages category w = (Ok [], after_get p w).
Proof.
  intros Hno H1 H2 H3 H4.
  destruct (no_div_no_match _ "uk-grid-small uk-flex-center" Hno) as [F1 _].
  destruct (no_div_no_match _ "uk-flex-center" Hno) as [F2 _].
  destruct (no_div_no_match _ card_class Hno) as [_ F3].
  repeat split.
  - unfold scrape_explore_menu, bind, soup_get, grid_results. rewrite H1, F1. reflexivity.
  - unfold scrape_search_results, bind, soup_get, grid_results. rewrite H2, F1. reflexivity.
  - unfold list_categories, bind, soup_get. rewrite H3, F2. reflexivity.
  - unfold scrape_category, bind, soup_get. rewrite H4, F3. reflexivity.
Qed.

(** The page of an error, for every URL. *)
Lemma X17_page_without_div_witness :
  scrape_explore_menu (env_cache 5) (fun _ => Some sample_error_page) w_three
    = (Raise AttributeError, after_get sample_error_page w_three)
  /\ scrape_search_results (env_cache 5) (fun _ => Some sample_error_page) "cats" w_three
    = (Raise AttributeError, after_get sample_error_page w_three)
  /\ list_categories (env_cache 5) (fun _ => Some sample_error_page) w_three
    = (Raise AttributeError, after_get sample_error_page w_three)
  /\ scrape_category (env_cache 5) (fun _ => Some sample_error_page) "horror" w_three
    = (Ok [], after_get sample_error_page w_three).
Proof.
  apply (X17_page_without_div (env_cache 5) (fun _ => Some sample_error_page)
           sample_error_page "cats" "horror" w_three);
    [repeat constructor | reflexivity | reflexivity | reflexivity | reflexivity].
Defined.

(** * Playback *)

Lemma retrieve_video_url_ok (env : Env) (channel view : string) (w w' : World)
    (url : string) :
  retrieve_video_url env channel view w = (Ok url, w') ->
  exists media rest, url = media ++ "?viewKey=" ++ rest.
Proof.
  unfold retrieve_video_url, bind, session_get.
  destruct (site env _) as [page|]; [|discriminate].
  destruct (og_video page) as [[media|]|]; simpl;
    destruct (data_view_key page) as [[view_key|]|]; simpl; try discriminate.
  match goal with
  | |- context [kodi_header ?w1] =>
      destruct (kodi_header w1) as [[h|e] w2]; [|discriminate]
  end.
  unfold ret. intros H. inversion H; subst.
  eexists. eexists. reflexivity.
Qed.

(** X18: [GabTV.play_video] always reports success to Kodi when it gets that
    far: the URL it resolves is never empty (it holds [?viewKey=] at
    least), so the flag [bool(url)] it passes to [setResolvedUrl] is
    always true; a video that cannot be resolved shows as an exception,
    never as [succeeded=False]. *)
Theorem X18_play_video_always_succeeds (env : Env) (channel view : string)
    (w w' : World) (ok : bool) (url : string) :
  GabTV_play_video env channel view w = (Ok (ok, url), w') ->
  ok = true /\ retrieve_video_url env channel view w = (Ok url, w').
Proof.
  unfold GabTV_play_video, bind.
  destruct (retrieve_video_url env channel view w) as [[u|e] w1] eqn:R; [|discriminate].
  unfold ret. intros H. inversion H; subst. split; [|reflexivity].
  apply retrieve_video_url_ok in R as (media & rest & ->).
  destruct media; reflexivity.
Qed.

(** The page of the stream URL example. *)
Lemma X18_play_video_always_succeeds_witness :
  GabTV_play_video (env_site cdn_page) "CHAN42" "V99" w_cookie
  = (Ok (true, "https://cdn/video?viewKey=abc123&r=1080p|Cookie=a%3D1&"), w_cookie).
Proof.
  destruct (GabTV_play_video (env_site cdn_page) "CHAN42" "V99" w_cookie)
    as [[[ok url]|e] w'] eqn:R; [|vm_compute in R; discriminate].
  destruct (X18_play_video_always_succeeds _ _ _ _ _ _ _ R) as [-> _].
  vm_compute in R. inversion R; subst. reflexivity.
Defined.

(** X19: resolving a stream never touches the thumbnail cache: however
    [retrieve_video_url] ends, the directory, the clock, the log of image
    requests and the session headers are as before; the cookie jar is the
    old one updated with the cookies of the page when the page was
    fetched (even if the page then lacks the video), and untouched when
    the request failed. *)
Theorem X19_resolution_leaves_the_cache_alone (env : Env) (channel view : string)
    (w w' : World) (out : result string) :
  retrieve_video_url env channel view w = (out, w') ->
  thumbs w' = thumbs w /\ clock w' = clock w /\ fetched w' = fetched w
  /\ session_headers w' = session_headers w
  /\ cookies w' = match site env (detail_url channel view) with
                  | Some page => update_jar (cookies w) (set_cookies page)
                  | None => cookies w
                  end.
Proof.
  unfold retrieve_video_url, bind, session_get. fold (detail_url channel view).
  destruct (site env (detail_url channel view)) as [page|].
  - destruct (og_video page) as [[media|]|]; simpl;
      destruct (data_view_key page) as [[view_key|]|]; simpl;
      try (intros H; inversion H; subst; simpl; auto; fail).
    match goal with
    | |- context [kodi_header ?w1] =>
        destruct (kodi_header w1) as [[h|e] w2] eqn:K;
        pose proof (kodi_header_world _ _ _ K) as Hw; subst w2
    end; unfold ret; intros H; inversion H; subst; simpl; auto.
  - intros H. inversion H; subst. auto.
Qed.

(** A page without the player. *)
Lemma X19_resolution_leaves_the_cache_alone_witness :
  thumbs (snd (retrieve_video_url
                 (env_site (mkPage [("sid", "7")] (Some (Some "https://cdn/video")) None))
                 "CHAN42" "V99" w_three)) = thumbs w_three
  /\ cookies (snd (retrieve_video_url
                 (env_site (mkPage [("sid", "7")] (Some (Some "https://cdn/video")) None))
                 "CHAN42" "V99" w_three)) = [("sid", "7")].
Proof.
  destruct (X19_resolution_leaves_the_cache_alone
              (env_site (mkPage [("sid", "7")] (Some (Some "https://cdn/video")) None))
              "CHAN42" "V99" w_three
              (snd (retrieve_video_url
                 (env_site (mkPage [("sid", "7")] (Some (Some "https://cdn/video")) None))
                 "CHAN42" "V99" w_three))
              (fst (retrieve_video_url
                 (env_site (mkPage [("sid", "7")] (Some (Some "https://cdn/video")) None))
                 "CHAN42" "V99" w_three)))
    as (Ht & _ & _ & _ & Hc).
  - destruct (retrieve_video_url _ _ _ _); reflexivity.
  - split; [exact Ht | exact Hc].
Defined.

(** X20: [retrieve_video_url] returns exactly when the page is fetched, has
    the [og:video] meta tag with its content and the player [div] with
    its view key, and the cookie jar after the request can be read by
    [kodi_header] (no name held twice, no empty value).  Otherwise it
    raises: [RequestException] when the request fails, [AttributeError]
    when one of the two tags is missing (whether or not the other one is
    complete), [TypeError] when both tags are there and one lacks its
    attribute, and, last, the [KeyError] or [CookieConflictError] of
    [kodi_header] when the page is complete and the jar is not
    readable. *)
Theorem X20_resolution_outcomes (env : Env) (channel view : string) (w : World) :
  ((exists url w', retrieve_video_url env channel view w = (Ok url, w'))
   <-> exists page media view_key,
         site env (detail_url channel view) = Some page /\
         og_video page = Some (Some media) /\
         data_view_key page = Some (Some view_key) /\
         jar_ok (update_jar (cookies w) (set_cookies page)) = true)
  /\ (site env (detail_url channel view) = None ->
      retrieve_video_url env channel view w = (Raise RequestException, w))
  /\ (forall page, site env (detail_url channel view) = Some page ->
      og_video page = None \/ data_view_key page = None ->
      fst (retrieve_video_url env channel view w) = Raise AttributeError)
  /\ (forall page m k, site env (detail_url channel view) = Some page ->
      og_video page = Some m -> data_view_key page = Some k ->
      m = None \/ k = None ->
      fst (retrieve_video_url env channel view w) = Raise TypeError)
  /\ (forall page media view_key, site env (detail_url channel view) = Some page ->
      og_video page = Some (Some media) -> data_view_key page = Some (Some view_key) ->
      jar_ok (update_jar (cookies w) (set_cookies page)) = false ->
      fst (retrieve_video_url env channel view w) = Raise KeyError
      \/ fst (retrieve_video_url env channel view w) = Raise CookieConflictError).
Proof.
  unfold retrieve_video_url, bind, session_get. fold (detail_url channel view).
  destruct (site env (detail_url channel view)) as [page|].
  - set (w1 := mkWorld (thumbs w) (clock w) (fetched w)
                       (update_jar (cookies w) (set_cookies page)) (session_headers w)).
    pose proof (kodi_header_cases w1) as K. cbn [cookies w1] in K.
    destruct (og_video page) as [[media|]|] eqn:Hm;
      destruct (data_view_key page) as [[view_key|]|] eqn:Hk; simpl;
      try (split; [split; [intros (url & w' & H); discriminate H
                          | intros (pg & md & vk & Hp & Ho & Hd & _);
                            inversion Hp; subst pg; congruence]
                  | split; [discriminate
                           | split; [intros pg Hp [Ho|Hd]; inversion Hp; subst pg;
                                     try congruence; reflexivity
                                    | split; [intros pg m k Hp Ho Hd [Hn|Hn];
                                              inversion Hp; subst pg;
                                              try congruence; reflexivity
                                             | intros pg md vk Hp Ho Hd;
                                               inversion Hp; subst pg; congruence]]]];
           fail).
    fold w1.
    destruct (jar_ok (update_jar (cookies w) (set_cookies page))) eqn:J.
    + rewrite K. unfold ret.
      split; [split; [intros _; exists page, media, view_key; auto
                     | intros _; eauto]|].
      split; [discriminate|].
      split; [intros pg Hp [Ho|Hd]; inversion Hp; subst pg; congruence|].
      split; [intros pg m k Hp Ho Hd [Hn|Hn]; inversion Hp; subst pg; congruence|].
      intros pg md vk Hp Ho Hd Hj. inversion Hp; subst pg. congruence.
    + destruct K as (e & -> & He).
      split; [split; [intros (url & w' & H); discriminate H
                     | intros (pg & md & vk & Hp & Ho & Hd & Hj);
                       inversion Hp; subst pg; congruence]|].
      split; [discriminate|].
      split; [intros pg Hp [Ho|Hd]; inversion Hp; subst pg; congruence|].
      split; [intros pg m k Hp Ho Hd [Hn|Hn]; inversion Hp; subst pg; congruence|].
      intros pg md vk Hp Ho Hd Hj. simpl. destruct He as [-> | ->]; auto.
  - split; [split; [intros (url & w' & H); discriminate
                   | intros (pg & _ & _ & Hp & _); discriminate]|].
    split; [reflexivity|]. repeat split; discriminate.
Qed.

(** A complete page and a session that holds the cookie [sid] twice. *)
Lemma X20_resolution_outcomes_witness :
  fst (retrieve_video_url (env_site cdn_page) "CHAN42" "V99"
         (mkWorld [] 0 [] [("sid", "1"); ("sid", "2")] []))
  = Raise CookieConflictError.
Proof.
  destruct (proj2 (proj2 (proj2 (proj2
    (X20_resolution_outcomes (env_site cdn_page) "CHAN42" "V99"
       (mkWorld [] 0 [] [("sid", "1"); ("sid", "2")] [])))))
    cdn_page "https://cdn/video" "abc123" eq_refl eq_refl eq_refl eq_refl) as [H|H].
  - vm_compute in H. discriminate.
  - exact H.
Defined.

(** * How the scrapers use the mapper *)

Lemma scrape_entries_length (rs : list Node) :
  forall entries, scrape_entries rs = Ok entries ->
  List.length entries = List.length rs.
Proof.
  induction rs as [|r rest IH]; intros entries H; simpl in H.
  - inversion H; subst. reflexivity.
  - destruct (scrape_entry r) as [x|e]; [|discriminate].
    destruct (scrape_entries rest) as [xs|e]; [|discriminate].
    inversion H; subst. simpl. rewrite (IH xs eq_refl). reflexivity.
Qed.

Lemma map_videos_dyn_typed (env : Env) (entries : list (string * option string * option string)) :
  forall titles video_urls,
  map (fun x => snd (fst x)) entries = map Some video_urls ->
  map snd entries = map Some titles ->
  map_videos_dyn env entries
  = __map_videos env titles video_urls (map (fun x => fst (fst x)) entries).
Proof.
  unfold __map_videos.
  induction entries as [|[[a v] t] r IH]; intros [|tt ts] [|vv vs] Hv Ht;
    simpl in Hv, Ht; try discriminate; [reflexivity|].
  inversion Hv; subst. inversion Ht; subst. simpl.
  rewrite (IH ts vs) by assumption. reflexivity.
Qed.

Lemma scrape_listing_typed (env : Env) (pages : string -> option HtmlPage)
    (url : string) (sel : Node -> result (list Node)) (p : HtmlPage)
    (rs : list Node) (entries : list (string * option string * option string))
    (titles video_urls : list string) (w : World) :
  pages url = Some p -> sel (html_soup p) = Ok rs -> scrape_entries rs = Ok entries ->
  map (fun x => snd (fst x)) entries = map Some video_urls ->
  map snd entries = map Some titles ->
  bind (soup_get pages url)
       (fun soup => bind (lift (sel soup))
          (fun results => bind (lift (scrape_entries results))
             (fun entries => map_videos_dyn env entries))) w
  = __map_videos env titles video_urls (map (fun x => fst (fst x)) entries) (after_get p w)
  /\ List.length titles = List.length rs
  /\ List.length video_urls = List.length rs
  /\ List.length (map (fun x => fst (fst x)) entries) = List.length rs.
Proof.
  intros P S E Hv Ht.
  pose proof (scrape_entries_length _ _ E) as Hl.
  split; [|repeat split].
  - unfold bind at 1. unfold soup_get. rewrite P.
    unfold bind at 1. rewrite S. simpl. unfold bind at 1. rewrite E. simpl.
    rewrite (map_videos_dyn_typed env entries titles video_urls Hv Ht). reflexivity.
  - rewrite <- Hl, <- (length_map snd entries), Ht, length_map. reflexivity.
  - rewrite <- Hl, <- (length_map (fun x => snd (fst x)) entries), Hv, length_map.
    reflexivity.
  - rewrite length_map. exact Hl.
Qed.

(** X21: at its call sites the mapper always gets three sequences of the same
    length.  When every result element of the page has its title and its
    reference, the explore scraper, the search scraper and the category
    scraper are [__map_videos] applied, in the world after the request, to
    the titles, the references and the art URLs read off the result
    elements in page order; the three lists have one entry per result
    element. *)
Theorem X21_scrapers_call_the_mapper (env : Env) (pages : string -> option HtmlPage)
    (url : string) (p : HtmlPage) (rs : list Node)
    (entries : list (string * option string * option string))
    (titles video_urls : list string) (w : World) :
  pages url = Some p -> scrape_entries rs = Ok entries ->
  map (fun x => snd (fst x)) entries = map Some video_urls ->
  map snd entries = map Some titles ->
  List.length titles = List.length rs
  /\ List.length video_urls = List.length rs
  /\ List.length (map (fun x => fst (fst x)) entries) = List.length rs
  /\ (url = BASE_URL -> grid_results (html_soup p) = Ok rs ->
      scrape_explore_menu env pages w
      = __map_videos env titles video_urls (map (fun x => fst (fst x)) entries)
                     (after_get p w))
  /\ (forall query, url = search_url query -> grid_results (html_soup p) = Ok rs ->
      scrape_search_results env pages query w
      = __map_videos env titles video_urls (map (fun x => fst (fst x)) entries)
                     (after_get p w))
  /\ (forall category, url = BASE_URL ++ "/category/" ++ category ->
      find_all (is_tag_class "div" card_class) (html_soup p) = rs ->
      scrape_category env pages category w
      = __map_videos env titles video_urls (map (fun x => fst (fst x)) entries)
                     (after_get p w)).
Proof.
  intros P E Hv Ht.
  pose proof (scrape_entries_length _ _ E) as Hl.
  split; [rewrite <- Hl, <- (length_map snd entries), Ht, length_map; reflexivity|].
  split; [rewrite <- Hl, <- (length_map (fun x => snd (fst x)) entries), Hv, length_map;
          reflexivity|].
  split; [rewrite length_map; exact Hl|].
  split; [|split].
  - intros -> G.
    apply (scrape_listing_typed env pages BASE_URL grid_results p rs entries
             titles video_urls w P G E Hv Ht).
  - intros query -> G.
    apply (scrape_listing_typed env pages (search_url query) grid_results p rs entries
             titles video_urls w P G E Hv Ht).
  - intros category -> G.
    apply (scrape_listing_typed env pages (BASE_URL ++ "/category/" ++ category)
             (fun soup => Ok (find_all (is_tag_class "div" card_class) soup))
             p rs entries titles video_urls w P (f_equal Ok G) E Hv Ht).
Qed.

(** The explore page with two cards. *)
Lemma X21_scrapers_call_the_mapper_witness :
  scrape_explore_menu (env_cache 5) (fun _ => Some sample_listing) w_empty
  = __map_videos (env_cache 5) ["T1"; "T2"]
      ["/channel/C1/view/V1"; "/channel/C2/view/V2"]
      ["https://tv.gab.com/img/a"; "https://tv.gab.com/img/b"]
      (after_get sample_listing w_empty).
Proof.
  refine (proj1 (proj2 (proj2 (proj2
    (X21_scrapers_call_the_mapper (env_cache 5) (fun _ => Some sample_listing)
       BASE_URL sample_listing
       [sample_card "T1" "/channel/C1/view/V1" "/img/a";
        sample_card "T2" "/channel/C2/view/V2" "/img/b"]
       [("https://tv.gab.com/img/a", Some "/channel/C1/view/V1", Some "T1");
        ("https://tv.gab.com/img/b", Some "/channel/C2/view/V2", Some "T2")]
       ["T1"; "T2"] ["/channel/C1/view/V1"; "/channel/C2/view/V2"] w_empty
       eq_refl eq_refl eq_refl eq_refl)))) eq_refl eq_refl).
Defined.

Lemma scrape_entries_bad (rs : list Node) :
  Exists (fun r => exists e, scrape_entry r = Raise e) rs ->
  exists e, scrape_entries rs = Raise e.
Proof.
  induction 1 as [r rest (e & He)|r rest Hrest IH]; simpl.
  - rewrite He. eauto.
  - destruct (scrape_entry r) as [x|e]; [|eauto].
    destruct IH as (e & ->). eauto.
Qed.

(** X22: the listings of videos read the whole page before they download
    anything: one result element that cannot be read (no thumbnail [div],
    no image in it, no [src], no inner [div]), wherever it is on the page,
    makes the scraper raise with the world as the request left it; no
    image of the other entries has been fetched or stored. *)
Theorem X22_page_is_read_before_any_download (env : Env)
    (pages : string -> option HtmlPage) (p : HtmlPage) (rs : list Node) (w : World) :
  Exists (fun r => exists e, scrape_entry r = Raise e) rs ->
  exists e,
    (pages BASE_URL = Some p -> grid_results (html_soup p) = Ok rs ->
     scrape_explore_menu env pages w = (Raise e, after_get p w))
    /\ (forall query, pages (search_url query) = Some p ->
        grid_results (html_soup p) = Ok rs ->
        scrape_search_results env pages query w = (Raise e, after_get p w))
    /\ (forall category, pages (BASE_URL ++ "/category/" ++ category) = Some p ->
        find_all (is_tag_class "div" card_class) (html_soup p) = rs ->
        scrape_category env pages category w = (Raise e, after_get p w)).
Proof.
  intros H. apply scrape_entries_bad in H as (e & E). exists e. split; [|split].
  - intros P G. unfold scrape_explore_menu, bind, soup_get. rewrite P, G. simpl.
    rewrite E. reflexivity.
  - intros query P G. unfold scrape_search_results, bind, soup_get. rewrite P, G. simpl.
    rewrite E. reflexivity.
  - intros category P G. unfold scrape_category, bind, soup_get. rewrite P, G. simpl.
    rewrite E. reflexivity.
Qed.

(** The explore page whose second card has no image: the image of the
    first card is not downloaded. *)
Lemma X22_page_is_read_before_any_download_witness :
  scrape_explore_menu (env_cache 5) (fun _ => Some sample_broken_listing) w_empty
  = (Raise AttributeError, after_get sample_broken_listing w_empty).
Proof.
  destruct (X22_page_is_read_before_any_download (env_cache 5)
              (fun _ => Some sample_broken_listing) sample_broken_listing
              [sample_card "T1" "/channel/C1/view/V1" "/img/a";
               Elem "div" None []
                 [Elem "div" (Some ["studio-episode"])
                    [("data-episode-url", "/channel/C2/view/V2"); ("title", "T2")]
                    [Elem "div" (Some ["studio-episode-thumbnail"]) [] []]]]
              w_empty) as (e & He & _).
  - apply Exists_cons_tl, Exists_cons_hd. exists AttributeError. reflexivity.
  - specialize (He eq_refl eq_refl). rewrite He. vm_compute in He.
    inversion He; subst. reflexivity.
Defined.

(** * The bandwidth limit *)

(** X23: the limit [get_max_bandwidth] computes from two integers is 0 exactly
    when both are 0 (0 stands for no limit); otherwise it is the smaller
    of the limits that are not 0, so it is always one of the two settings
    and it does not depend on which setting holds which limit. *)
Theorem X23_max_bandwidth (g k : Z) :
  exists r, get_max_bandwidth (Ok g) (Ok k) = Ok r
    /\ (r = 0%Z <-> g = 0%Z /\ k = 0%Z)
    /\ (g <> 0%Z -> k <> 0%Z -> r = Z.min g k)
    /\ (g = 0%Z -> r = k) /\ (k = 0%Z -> r = g)
    /\ get_max_bandwidth (Ok k) (Ok g) = Ok r.
Proof.
  unfold get_max_bandwidth.
  destruct (Z.eqb_spec g 0) as [->|Hg]; destruct (Z.eqb_spec k 0) as [->|Hk]; simpl;
    eexists; (split; [reflexivity|]);
    repeat split; intros; try lia; try (f_equal; lia).
Qed.
